(** * Context: the cryptographic primitive layer of private-join-and-compute

    A shallow embedding of [src/crypto/context.cc].  The methods of
    [Context] are written in a small state-and-abort monad over the
    mutable fields of the object (digest state, keyed-hash state), the
    process-wide random generator, and a log of the calls made into the
    underlying engine.  [CHECK] and [CRYPTO_CHECK] abort the process; they
    are the two ways a computation can stop without a value. *)

From Stdlib Require Import ZArith List Lia Bool.
From Stdlib Require Import Strings.Byte.
Import ListNotations.
Local Open Scope Z_scope.

Definition bytes := list byte.

(** ** Machine integers

    [int] is 32-bit two's complement, [size_t] and [uint64_t] are 64-bit
    unsigned.  Results of arithmetic are wrapped explicitly. *)

Definition INT_MAX : Z := 2 ^ 31 - 1.
Definition SIZE_MAX : Z := 2 ^ 64 - 1.

Definition wrap_int (z : Z) : Z := (z + 2 ^ 31) mod 2 ^ 32 - 2 ^ 31.
Definition wrap_size_t (z : Z) : Z := z mod 2 ^ 64.

Definition int_add (a b : Z) : Z := wrap_int (a + b).
Definition int_sub (a b : Z) : Z := wrap_int (a - b).
Definition int_mul (a b : Z) : Z := wrap_int (a * b).

(** ** Single-precision floats holding integers

    [static_cast<float>(n)] rounds the integer [n] to 24 significant bits,
    to nearest with ties to even.  The result is again an integer, so it is
    kept in [Z].  Dividing by 512 is exact in binary floating point, and
    [std::ceil] of the quotient is the ceiling of the exact quotient. *)

Definition FLT_MANT_DIG : Z := 24.

Definition round_to_float (n : Z) : Z :=
  let e := Z.log2 n in
  if e <? FLT_MANT_DIG then n
  else
    let sh := e - (FLT_MANT_DIG - 1) in
    let q := Z.shiftr n sh in
    let r := Z.land n (Z.ones sh) in
    let half := Z.shiftl 1 (sh - 1) in
    let up := (half <? r) || ((half =? r) && Z.odd q) in
    Z.shiftl (if up then q + 1 else q) sh.

Definition float_of_int (n : Z) : Z :=
  if n <? 0 then - round_to_float (- n) else round_to_float n.

(** [int k = std::ceil(f / d)] for an integer-valued float [f] and a
    positive power of two [d]. *)
Definition ceil_float_div (f d : Z) : Z := - ((- f) / d).

(** ** BigNum *)

Module BigNum.

(** Modelled from the spec: the arbitrary-precision integer wrapper
    (class BigNum of crypto/big_num.cc, which is absent from the sources).
    Section 4.1 gives its contract: construction from a big-endian byte
    string or a native unsigned integer, bit shifts, bit length, byte
    serialisation, comparison, modular reduction and gcd.  A value is a
    mathematical integer; addition, subtraction and comparison are those
    of [Z]. *)
Definition t : Type := Z.

(** Modelled from the spec: the value of one byte of a big-endian byte
    string. *)
Definition byte_val (b : byte) : Z := Z.of_N (Byte.to_N b).

(** Modelled from the spec: the byte holding the low eight bits of a
    number, for byte serialisation. *)
Definition byte_of (z : Z) : byte :=
  match Byte.of_N (Z.to_N (z mod 256)) with
  | Some b => b
  | None => x00
  end.

(** Modelled from the spec: construction from a big-endian byte string
    (BigNum(ctx, bytes), absent from the sources). *)
Definition of_bytes (bs : bytes) : t :=
  fold_left (fun acc b => acc * 256 + byte_val b) bs 0.

(** Modelled from the spec: construction from a native unsigned 64-bit
    integer (BigNum(ctx, uint64_t), absent from the sources). *)
Definition of_uint64 (number : Z) : t := number mod 2 ^ 64.

(** Modelled from the spec: the bit-length query (BigNum::BitLength,
    absent from the sources); zero has bit length 0. *)
Definition BitLength (n : t) : Z :=
  if n =? 0 then 0 else Z.log2 (Z.abs n) + 1.

(** Modelled from the spec: the length of the byte serialisation, the
    bit length rounded up to whole bytes. *)
Definition NumBytes (n : t) : Z := (BitLength n + 7) / 8.

(** Modelled from the spec: the [len] low-order bytes of [n], most
    significant first. *)
Fixpoint be_bytes (len : nat) (n : Z) : bytes :=
  match len with
  | O => []
  | S len' => be_bytes len' (n / 256) ++ [byte_of n]
  end.

(** Modelled from the spec: byte serialisation (BigNum::ToBytes, absent
    from the sources): the big-endian magnitude without leading zero
    bytes, so that zero serialises to the empty string. *)
Definition ToBytes (n : t) : bytes :=
  be_bytes (Z.to_nat (NumBytes n)) (Z.abs n).

(** Modelled from the spec: the left bit shift (BigNum::Lshift, absent
    from the sources). *)
Definition Lshift (a : t) (n : Z) : t := Z.shiftl a n.

(** Modelled from the spec: the right bit shift (BigNum::Rshift, absent
    from the sources). *)
Definition Rshift (a : t) (n : Z) : t := Z.shiftr a n.

(** Modelled from the spec: the low [n] bits of a value
    (BigNum::GetLastNBits, absent from the sources). *)
Definition GetLastNBits (a : t) (n : Z) : t := Z.land a (Z.ones n).

(** Modelled from the spec: greatest common divisor (BigNum::Gcd, absent
    from the sources). *)
Definition Gcd (a b : t) : t := Z.gcd a b.

(** Modelled from the spec: non-negative reduction (BigNum::Mod, absent
    from the sources).  Section 7 makes a non-positive modulus fatal, so
    the value is only defined for a positive modulus. *)
Definition Mod (a m : t) : option t :=
  if 0 <? m then Some (a mod m) else None.

End BigNum.

(** ** The underlying engine

    The digest, keyed-hash and random-number engine is an external
    collaborator.  Its pure functions and its random generator are taken as
    an interface; the call life cycles (init / update / final) that
    [Context] drives are modelled as state machines over that interface. *)

Inductive EVP_MD : Type := EVP_sha256 | EVP_sha512.

Definition EVP_MD_size (md : EVP_MD) : Z :=
  match md with
  | EVP_sha256 => 32
  | EVP_sha512 => 64
  end.

Class Engine : Type := {
  (** the digest of a message under a hash algorithm *)
  digest : EVP_MD -> bytes -> bytes;
  (** the keyed hash of a message: algorithm, key, message *)
  hmac : EVP_MD -> bytes -> bytes -> bytes;
  (** the state of the process-wide random generator *)
  rand_state : Type;
  (** a draw below [range]: [None] when the engine reports failure *)
  rand_range : rand_state -> Z -> option Z * rand_state;
  (** [num] random bytes: [None] when the engine reports failure *)
  rand_bytes : rand_state -> Z -> option bytes * rand_state
}.

(** What the engine promises. *)
Class EngineSpec (E : Engine) : Prop := {
  digest_size : forall md m, Z.of_nat (length (digest md m)) = EVP_MD_size md;
  hmac_size : forall md key m,
      Z.of_nat (length (hmac md key m)) = EVP_MD_size md;
  rand_range_bound : forall s range r,
      fst (rand_range s range) = Some r -> 0 <= r < range;
  rand_range_valid : forall s range,
      0 < range -> fst (rand_range s range) <> None;
  rand_range_invalid : forall s range,
      range <= 0 -> fst (rand_range s range) = None;
  rand_bytes_valid : forall s num,
      0 <= num ->
      exists bs, fst (rand_bytes s num) = Some bs /\ Z.of_nat (length bs) = num
}.

(** A digest context: the algorithm it was initialised with and the input
    absorbed so far.  Finalising leaves both in place, so whatever a call
    leaves behind is visible to the next one. *)
Record EVP_MD_CTX : Type := {
  md_type : option EVP_MD;
  md_input : bytes
}.

(** A keyed-hash context: algorithm, key and the input absorbed so far. *)
Record HMAC_CTX : Type := {
  hmac_md : option EVP_MD;
  hmac_key : bytes;
  hmac_input : bytes
}.

(** Calls into the engine, in the order they were made. *)
Inductive EngineCall : Type :=
| Call_EVP_DigestInit_ex (md : EVP_MD)
| Call_EVP_DigestUpdate (data : bytes)
| Call_EVP_DigestFinal_ex
| Call_HMAC_Init_ex (key : bytes) (md : EVP_MD)
| Call_HMAC_Update (data : bytes)
| Call_HMAC_Final
| Call_BN_rand_range (range : Z) (result : option Z)
| Call_RAND_bytes (num : Z).

(** ** Outcomes and the monad of [Context] methods *)

Inductive Fatal : Type :=
| CheckFailed        (* a CHECK, CHECK_GE or CHECK_LE of the method itself *)
| EngineFailed.      (* a CRYPTO_CHECK on what an engine call reported *)

Inductive Outcome (A : Type) : Type :=
| Returned (a : A)
| Aborted (why : Fatal)
| OutOfFuel.

Arguments Returned {A} a.
Arguments Aborted {A} why.
Arguments OutOfFuel {A}.

Section WithEngine.

Context {E : Engine}.

(** The mutable fields of a [Context] object, the random generator it
    draws from, and the log of engine calls. *)
Record State : Type := {
  evp_md_ctx_ : EVP_MD_CTX;
  hmac_ctx_ : HMAC_CTX;
  rand_ : rand_state;
  calls : list EngineCall
}.

Definition M (A : Type) : Type := State -> Outcome A * State.

Definition ret {A} (a : A) : M A := fun s => (Returned a, s).

Definition bind {A B} (m : M A) (k : A -> M B) : M B :=
  fun s =>
    match m s with
    | (Returned a, s') => k a s'
    | (Aborted why, s') => (Aborted why, s')
    | (OutOfFuel, s') => (OutOfFuel, s')
    end.

Definition abort {A} (why : Fatal) : M A := fun s => (Aborted why, s).
Definition out_of_fuel {A} : M A := fun s => (OutOfFuel, s).

Definition CHECK (cond : bool) : M unit :=
  if cond then ret tt else abort CheckFailed.

Definition CRYPTO_CHECK (cond : bool) : M unit :=
  if cond then ret tt else abort EngineFailed.

Definition log (c : EngineCall) (s : State) : State :=
  {| evp_md_ctx_ := evp_md_ctx_ s;
     hmac_ctx_ := hmac_ctx_ s;
     rand_ := rand_ s;
     calls := calls s ++ [c] |}.

Definition set_md_ctx (c : EVP_MD_CTX) (s : State) : State :=
  {| evp_md_ctx_ := c;
     hmac_ctx_ := hmac_ctx_ s;
     rand_ := rand_ s;
     calls := calls s |}.

Definition set_hmac_ctx (c : HMAC_CTX) (s : State) : State :=
  {| evp_md_ctx_ := evp_md_ctx_ s;
     hmac_ctx_ := c;
     rand_ := rand_ s;
     calls := calls s |}.

Definition set_rand (r : rand_state) (s : State) : State :=
  {| evp_md_ctx_ := evp_md_ctx_ s;
     hmac_ctx_ := hmac_ctx_ s;
     rand_ := r;
     calls := calls s |}.

End WithEngine.

Declare Scope ctx_scope.
Delimit Scope ctx_scope with ctx.
Notation "x <- m ;; k" := (bind m (fun x => k))
  (at level 61, m at next level, right associativity) : ctx_scope.
Notation "m ;; k" := (bind m (fun _ => k))
  (at level 61, right associativity) : ctx_scope.
Local Open Scope ctx_scope.

(** ** Engine entry points

    Each returns what the C function returns: 1 on success and 0 on
    failure, with the output parameters alongside. *)

Section EngineCalls.

Context {E : Engine}.

Definition EVP_DigestInit_ex (md : EVP_MD) : M Z :=
  fun s =>
    let s := log (Call_EVP_DigestInit_ex md) s in
    (Returned 1, set_md_ctx {| md_type := Some md; md_input := [] |} s).

Definition EVP_DigestUpdate (data : bytes) : M Z :=
  fun s =>
    let s := log (Call_EVP_DigestUpdate data) s in
    match md_type (evp_md_ctx_ s) with
    | None => (Returned 0, s)
    | Some md =>
        (Returned 1,
         set_md_ctx {| md_type := Some md;
                       md_input := md_input (evp_md_ctx_ s) ++ data |} s)
    end.

(** Yields the return code, the bytes written to [hash] and [md_len]. *)
Definition EVP_DigestFinal_ex : M (Z * bytes * Z) :=
  fun s =>
    let s := log Call_EVP_DigestFinal_ex s in
    match md_type (evp_md_ctx_ s) with
    | None => (Returned (0, [], 0), s)
    | Some md =>
        let h := digest md (md_input (evp_md_ctx_ s)) in
        (Returned (1, h, Z.of_nat (length h)), s)
    end.

Definition HMAC_Init_ex (key : bytes) (md : EVP_MD) : M Z :=
  fun s =>
    let s := log (Call_HMAC_Init_ex key md) s in
    (Returned 1,
     set_hmac_ctx {| hmac_md := Some md; hmac_key := key;
                     hmac_input := [] |} s).

Definition HMAC_Update (data : bytes) : M Z :=
  fun s =>
    let s := log (Call_HMAC_Update data) s in
    match hmac_md (hmac_ctx_ s) with
    | None => (Returned 0, s)
    | Some md =>
        (Returned 1,
         set_hmac_ctx {| hmac_md := Some md;
                         hmac_key := hmac_key (hmac_ctx_ s);
                         hmac_input := hmac_input (hmac_ctx_ s) ++ data |} s)
    end.

Definition HMAC_Final : M (Z * bytes * Z) :=
  fun s =>
    let s := log Call_HMAC_Final s in
    match hmac_md (hmac_ctx_ s) with
    | None => (Returned (0, [], 0), s)
    | Some md =>
        let h := hmac md (hmac_key (hmac_ctx_ s)) (hmac_input (hmac_ctx_ s)) in
        (Returned (1, h, Z.of_nat (length h)), s)
    end.

(** Yields the return code and the number stored in the result. *)
Definition BN_rand_range (range : Z) : M (Z * Z) :=
  fun s =>
    let (r, g) := rand_range (rand_ s) range in
    let s := set_rand g (log (Call_BN_rand_range range r) s) in
    match r with
    | Some v => (Returned (1, v), s)
    | None => (Returned (0, 0), s)
    end.

(** Yields the return code and the bytes written to the buffer. *)
Definition RAND_bytes (num : Z) : M (Z * bytes) :=
  fun s =>
    let (r, g) := rand_bytes (rand_ s) num in
    let s := set_rand g (log (Call_RAND_bytes num) s) in
    match r with
    | Some bs => (Returned (1, bs), s)
    | None => (Returned (0, []), s)
    end.

End EngineCalls.

Notation "' pat <- m ;; k" :=
  (bind m (fun x => match x with pat => k end))
  (at level 61, pat pattern, m at next level, right associativity) : ctx_scope.

(** ** The methods of [Context] *)

Section ContextMethods.

Context {E : Engine}.

(** [Context::CreateBigNum(const std::string&)] and
    [Context::CreateBigNum(uint64_t)]. *)
Definition CreateBigNum_bytes (b : bytes) : BigNum.t := BigNum.of_bytes b.
Definition CreateBigNum (number : Z) : BigNum.t := BigNum.of_uint64 number.

Definition One : BigNum.t := CreateBigNum 1.

(** A BigNum operation that the engine refuses stops the process
    (section 4.1: failures of the underlying engine are fatal). *)
Definition checked {A} (o : option A) : M A :=
  match o with
  | Some a => ret a
  | None => abort EngineFailed
  end.

Definition Sha256String (b : bytes) : M bytes :=
  ok <- EVP_DigestInit_ex EVP_sha256 ;;
  CRYPTO_CHECK (1 =? ok) ;;
  ok <- EVP_DigestUpdate b ;;
  CRYPTO_CHECK (1 =? ok) ;;
  ' (ok, hash, md_len) <- EVP_DigestFinal_ex ;;
  CRYPTO_CHECK (1 =? ok) ;;
  ret (firstn (Z.to_nat md_len) hash).

Definition Sha512String (b : bytes) : M bytes :=
  ok <- EVP_DigestInit_ex EVP_sha512 ;;
  CRYPTO_CHECK (1 =? ok) ;;
  ok <- EVP_DigestUpdate b ;;
  CRYPTO_CHECK (1 =? ok) ;;
  ' (ok, hash, md_len) <- EVP_DigestFinal_ex ;;
  CRYPTO_CHECK (1 =? ok) ;;
  ret (firstn (Z.to_nat md_len) hash).

(** The body of [for (int i = 1; i < iter_count + 1; i++)], with [n] the
    number of iterations still to run. *)
Fixpoint RandomOracle_loop (n : nat) (x : bytes) (i : Z)
         (hash_output : BigNum.t) : M BigNum.t :=
  match n with
  | O => ret hash_output
  | S n' =>
      let hash_output := BigNum.Lshift hash_output 512 in
      h <- Sha512String (BigNum.ToBytes (CreateBigNum i) ++ x) ;;
      let hash_output := hash_output + CreateBigNum_bytes h in
      RandomOracle_loop n' x (int_add i 1) hash_output
  end.

Definition RandomOracle (x : bytes) (max_value : BigNum.t) : M BigNum.t :=
  let output_bit_length := int_add (BigNum.BitLength max_value) 512 in
  let iter_count := ceil_float_div (float_of_int output_bit_length) 512 in
  CHECK (iter_count <? 255) ;;
  let excess_bit_count := int_sub (int_mul iter_count 512) output_bit_length in
  hash_output <-
    RandomOracle_loop (Z.to_nat iter_count) x 1 (CreateBigNum 0) ;;
  checked (BigNum.Mod (BigNum.Rshift hash_output excess_bit_count) max_value).

(** [fuel] bounds the depth of the recursion: the C++ function calls
    itself until a candidate is accepted. *)
Fixpoint PRF (fuel : nat) (key data : bytes) (max_value : BigNum.t)
  : M BigNum.t :=
  CHECK (80 <=? wrap_size_t (Z.of_nat (length key) * 8)) ;;
  CHECK (BigNum.BitLength max_value <=? 512) ;;
  ok <- HMAC_Init_ex key EVP_sha512 ;;
  CRYPTO_CHECK (1 =? ok) ;;
  ok <- HMAC_Update data ;;
  CRYPTO_CHECK (1 =? ok) ;;
  ' (ok, hash, md_len) <- HMAC_Final ;;
  CRYPTO_CHECK (1 =? ok) ;;
  let hash_bn := BigNum.of_bytes (firstn (Z.to_nat md_len) hash) in
  let hash_bn_reduced :=
    BigNum.GetLastNBits hash_bn (BigNum.BitLength max_value) in
  if hash_bn_reduced <? max_value then ret hash_bn_reduced
  else
    match fuel with
    | O => out_of_fuel
    | S fuel' => PRF fuel' key (BigNum.ToBytes hash_bn) max_value
    end.

Definition GenerateRandLessThan (max_value : BigNum.t) : M BigNum.t :=
  ' (ok, r) <- BN_rand_range max_value ;;
  CRYPTO_CHECK (1 =? ok) ;;
  ret r.

Definition GenerateRandBetween (start end_ : BigNum.t) : M BigNum.t :=
  CHECK (start <? end_) ;;
  r <- GenerateRandLessThan (end_ - start) ;;
  ret (r + start).

Definition GenerateRandomBytes (num_bytes : Z) : M bytes :=
  CHECK (0 <=? num_bytes) ;;
  ' (ok, buf) <- RAND_bytes num_bytes ;;
  CRYPTO_CHECK (1 =? ok) ;;
  ret (firstn (Z.to_nat num_bytes) buf).

(** The [while] loop of [RelativelyPrimeRandomLessThan]; [fuel] bounds
    the number of times its body runs. *)
Fixpoint RelativelyPrime_loop (fuel : nat) (num rand_num : BigNum.t)
  : M BigNum.t :=
  if One <? BigNum.Gcd rand_num num then
    match fuel with
    | O => out_of_fuel
    | S fuel' =>
        rand_num <- GenerateRandLessThan num ;;
        RelativelyPrime_loop fuel' num rand_num
    end
  else ret rand_num.

Definition RelativelyPrimeRandomLessThan (fuel : nat) (num : BigNum.t)
  : M BigNum.t :=
  rand_num <- GenerateRandLessThan num ;;
  RelativelyPrime_loop fuel num rand_num.

End ContextMethods.

(** ** Reference definitions, following the wording of the specification *)

Section Reference.

Context {E : Engine}.

(** Section 4.4: for counter [i = 1..k], the 512-bit hash of
    (byte-encoding of [i]) || [x], in counter order. *)
Definition spec_oracle_blocks (x : bytes) (k : nat) : list bytes :=
  map (fun i => digest EVP_sha512 (BigNum.ToBytes (Z.of_nat i) ++ x))
      (seq 1 k).

(** Section 4.4: concatenate the blocks, first block most significant,
    drop the [k*512 - L] excess low bits, reduce modulo [max_value]. *)
Definition spec_oracle_expansion (x : bytes) (max_value : Z) : Z :=
  let L := BigNum.BitLength max_value + 512 in
  let k := (L + 511) / 512 in
  let concatenated :=
    BigNum.of_bytes (concat (spec_oracle_blocks x (Z.to_nat k))) in
  Z.shiftr concatenated (k * 512 - L) mod max_value.

(** Section 4.5: the keyed hash of [data] as an integer, the candidate
    taken from its low bits, and the data of the next round. *)
Definition spec_prf_hash (key data : bytes) : Z :=
  BigNum.of_bytes (hmac EVP_sha512 key data).

Definition spec_prf_candidate (key data : bytes) (max_value : Z) : Z :=
  spec_prf_hash key data mod 2 ^ BigNum.BitLength max_value.

Fixpoint spec_prf_data (key data : bytes) (round : nat) : bytes :=
  match round with
  | O => data
  | S r => BigNum.ToBytes (spec_prf_hash key (spec_prf_data key data r))
  end.

(** The calls by which the digest state is used from outside. *)
Inductive DigestRequest : Type :=
| Hash256 (b : bytes)
| Hash512 (b : bytes).

Definition serve (q : DigestRequest) (s : State) : State :=
  match q with
  | Hash256 b => snd (Sha256String b s)
  | Hash512 b => snd (Sha512String b s)
  end.

Definition serve_all (qs : list DigestRequest) (s : State) : State :=
  fold_left (fun s q => serve q s) qs s.

End Reference.

(** ** A small engine to run the model on

    Not a cryptographic engine: it only honours the interface, so that the
    methods can be evaluated on concrete inputs. *)

Module TestEngine.

Definition mix (m : bytes) : Z :=
  fold_left (fun a c => (a * 31 + BigNum.byte_val c + 1) mod 256) m 7.

Definition test_digest (md : EVP_MD) (m : bytes) : bytes :=
  repeat (BigNum.byte_of (mix m)) (Z.to_nat (EVP_MD_size md)).

Definition test_rand_range (s : Z) (range : Z) : option Z * Z :=
  (if 0 <? range then Some (s mod range) else None, s + 1).

Definition test_rand_bytes (s : Z) (num : Z) : option bytes * Z :=
  (if 0 <=? num then Some (repeat (BigNum.byte_of s) (Z.to_nat num))
   else None, s + 1).

#[export] Instance engine : Engine := {|
  digest := test_digest;
  hmac := fun md key m => test_digest md (key ++ m);
  rand_state := Z;
  rand_range := test_rand_range;
  rand_bytes := test_rand_bytes
|}.

(** A freshly constructed [Context] with the generator at [seed]. *)
Definition fresh (seed : Z) : State :=
  {| evp_md_ctx_ := {| md_type := None; md_input := [] |};
     hmac_ctx_ := {| hmac_md := None; hmac_key := []; hmac_input := [] |};
     rand_ := seed;
     calls := [] |}.

Definition key10 : bytes :=
  [x30; x31; x32; x33; x34; x35; x36; x37; x38; x39].

Definition hello : bytes := [x68; x65; x6c; x6c; x6f].

End TestEngine.

(** ** States reached by the methods *)

Section Footprints.

Context {E : Engine}.

(** The state a digest of [b] under [md] leaves behind. *)
Definition after_digest (md : EVP_MD) (b : bytes) (s : State) : State :=
  {| evp_md_ctx_ := {| md_type := Some md; md_input := b |};
     hmac_ctx_ := hmac_ctx_ s;
     rand_ := rand_ s;
     calls := calls s ++ [Call_EVP_DigestInit_ex md;
                          Call_EVP_DigestUpdate b;
                          Call_EVP_DigestFinal_ex] |}.

(** The state one keyed hash of [data] under [key] leaves behind. *)
Definition after_hmac (key data : bytes) (s : State) : State :=
  {| evp_md_ctx_ := evp_md_ctx_ s;
     hmac_ctx_ := {| hmac_md := Some EVP_sha512; hmac_key := key;
                     hmac_input := data |};
     rand_ := rand_ s;
     calls := calls s ++ [Call_HMAC_Init_ex key EVP_sha512;
                          Call_HMAC_Update data;
                          Call_HMAC_Final] |}.

(** The state one draw below [range] leaves behind. *)
Definition after_draw (range : Z) (s : State) : State :=
  {| evp_md_ctx_ := evp_md_ctx_ s;
     hmac_ctx_ := hmac_ctx_ s;
     rand_ := snd (rand_range (rand_ s) range);
     calls := calls s ++
              [Call_BN_rand_range range (fst (rand_range (rand_ s) range))] |}.

End Footprints.

(** ** Engine calls of one digest and of one keyed hash *)

Definition digest_calls (md : EVP_MD) (m : bytes) : list EngineCall :=
  [Call_EVP_DigestInit_ex md; Call_EVP_DigestUpdate m; Call_EVP_DigestFinal_ex].

Definition hmac_calls (key data : bytes) : list EngineCall :=
  [Call_HMAC_Init_ex key EVP_sha512; Call_HMAC_Update data; Call_HMAC_Final].

(** The message [RandomOracle] hashes for the counter [i]. *)
Definition oracle_message (x : bytes) (i : Z) : bytes :=
  BigNum.ToBytes (CreateBigNum i) ++ x.

(** ** Engines that misbehave

    [BrokenEngine] has a random generator that reports failure on every
    request; [StuckEngine] has one that answers every range request with 0.
    Both hash like the test engine. *)

Module BrokenEngine.

#[export] Instance engine : Engine := {|
  digest := TestEngine.test_digest;
  hmac := fun md key m => TestEngine.test_digest md (key ++ m);
  rand_state := Z;
  rand_range := fun s _ => (None, s + 1);
  rand_bytes := fun s _ => (None, s + 1)
|}.

Definition fresh (seed : Z) : State :=
  {| evp_md_ctx_ := {| md_type := None; md_input := [] |};
     hmac_ctx_ := {| hmac_md := None; hmac_key := []; hmac_input := [] |};
     rand_ := seed;
     calls := [] |}.

End BrokenEngine.

Module StuckEngine.

#[export] Instance engine : Engine := {|
  digest := TestEngine.test_digest;
  hmac := fun md key m => TestEngine.test_digest md (key ++ m);
  rand_state := Z;
  rand_range := fun s _ => (Some 0, s + 1);
  rand_bytes := fun s num => (Some (repeat x00 (Z.to_nat num)), s + 1)
|}.

Definition fresh (seed : Z) : State :=
  {| evp_md_ctx_ := {| md_type := None; md_input := [] |};
     hmac_ctx_ := {| hmac_md := None; hmac_key := []; hmac_input := [] |};
     rand_ := seed;
     calls := [] |}.

End StuckEngine.

(** * Properties *)

(** ** Machine arithmetic *)

Lemma wrap_int_id (z : Z) : - 2 ^ 31 <= z <= INT_MAX -> wrap_int z = z.
Proof.
  unfold wrap_int, INT_MAX. intros H.
  rewrite Z.mod_small; lia.
Qed.

Lemma wrap_size_t_id (z : Z) : 0 <= z <= SIZE_MAX -> wrap_size_t z = z.
Proof.
  unfold wrap_size_t, SIZE_MAX. intros H. apply Z.mod_small. lia.
Qed.

Lemma ceil_float_div_512 (f : Z) : ceil_float_div f 512 = (f + 511) / 512.
Proof.
  unfold ceil_float_div.
  pose proof (Z.div_mod (- f) 512 ltac:(lia)) as H1.
  pose proof (Z.mod_pos_bound (- f) 512 ltac:(lia)) as H2.
  pose proof (Z.div_mod (f + 511) 512 ltac:(lia)) as H3.
  pose proof (Z.mod_pos_bound (f + 511) 512 ltac:(lia)) as H4.
  lia.
Qed.

(** An integer below 2^24 is a float already. *)
Lemma round_to_float_exact (n : Z) :
  0 <= n < 2 ^ 24 -> round_to_float n = n.
Proof.
  intros [H0 H1]. unfold round_to_float, FLT_MANT_DIG.
  destruct (Z.eq_dec n 0) as [-> | Hn]; [reflexivity |].
  assert (Z.log2 n < 24) by (apply Z.log2_lt_pow2; lia).
  destruct (Z.ltb_spec (Z.log2 n) 24); [reflexivity | lia].
Qed.

(** Rounding never takes an integer from 2^24 upwards below 2^24. *)
Lemma round_to_float_large (n : Z) :
  2 ^ 24 <= n -> 2 ^ 24 <= round_to_float n.
Proof.
  intros Hn. unfold round_to_float, FLT_MANT_DIG.
  assert (He : 24 <= Z.log2 n).
  { change 24 with (Z.log2 (2 ^ 24)) at 1. apply Z.log2_le_mono. exact Hn. }
  destruct (Z.ltb_spec (Z.log2 n) 24) as [Hlt | _]; [lia |].
  set (e := Z.log2 n) in *.
  set (sh := e - (24 - 1)).
  assert (Hsh : 0 < sh) by (unfold sh; lia).
  assert (Hpow : 2 ^ e <= n).
  { unfold e. apply Z.log2_spec. lia. }
  assert (Hsplit : 2 ^ e = 2 ^ sh * 2 ^ 23).
  { rewrite <- Z.pow_add_r by lia. f_equal. unfold sh. lia. }
  assert (Hq : 2 ^ 23 <= Z.shiftr n sh).
  { rewrite Z.shiftr_div_pow2 by lia.
    apply Z.div_le_lower_bound; [apply Z.pow_pos_nonneg; lia | lia]. }
  assert (H2sh : 0 < 2 ^ sh) by (apply Z.pow_pos_nonneg; lia).
  assert (H24 : 2 ^ 24 <= 2 ^ e) by (apply Z.pow_le_mono_r; lia).
  rewrite Z.shiftl_mul_pow2 by lia.
  match goal with |- context [if ?b then _ else _] => destruct b end; nia.
Qed.

Lemma float_of_int_exact (n : Z) : 0 <= n < 2 ^ 24 -> float_of_int n = n.
Proof.
  intros H. unfold float_of_int.
  destruct (Z.ltb_spec n 0); [lia | apply round_to_float_exact; exact H].
Qed.

Lemma float_of_int_large (n : Z) : 2 ^ 24 <= n -> 2 ^ 24 <= float_of_int n.
Proof.
  intros H. unfold float_of_int.
  destruct (Z.ltb_spec n 0); [lia | apply round_to_float_large; exact H].
Qed.

(** ** BigNum *)

Lemma BitLength_nonneg (n : Z) : 0 <= BigNum.BitLength n.
Proof.
  unfold BigNum.BitLength. destruct (n =? 0); [lia |].
  pose proof (Z.log2_nonneg (Z.abs n)). lia.
Qed.

(** The number of loop iterations [RandomOracle] computes is
    ceil(L / 512) whenever [L] fits a float exactly, and is at least 255
    from there on. *)
Lemma iter_count_small (B : Z) :
  0 <= B -> B + 512 < 2 ^ 24 ->
  ceil_float_div (float_of_int (int_add B 512)) 512 = (B + 512 + 511) / 512.
Proof.
  intros H0 H1. unfold int_add.
  rewrite wrap_int_id by (unfold INT_MAX; lia).
  rewrite float_of_int_exact by lia.
  apply ceil_float_div_512.
Qed.

Lemma iter_count_large (B : Z) :
  0 <= B -> 2 ^ 24 <= B + 512 -> B + 512 <= INT_MAX ->
  255 <= ceil_float_div (float_of_int (int_add B 512)) 512.
Proof.
  intros H0 H1 H2. unfold int_add.
  rewrite wrap_int_id by (unfold INT_MAX in *; lia).
  pose proof (float_of_int_large (B + 512) H1) as Hf.
  rewrite ceil_float_div_512.
  apply Z.div_le_lower_bound; lia.
Qed.

(** ** The digest engine *)

Section DigestProperties.

Context {E : Engine}.

Lemma firstn_md_len (h : bytes) :
  firstn (Z.to_nat (Z.of_nat (length h))) h = h.
Proof. rewrite Nat2Z.id. apply firstn_all. Qed.

Lemma Sha256String_run (b : bytes) (s : State) :
  Sha256String b s =
  (Returned (digest EVP_sha256 b), after_digest EVP_sha256 b s).
Proof.
  unfold Sha256String, bind, EVP_DigestInit_ex, EVP_DigestUpdate,
    EVP_DigestFinal_ex, CRYPTO_CHECK, ret, after_digest, log, set_md_ctx.
  cbn. rewrite firstn_md_len, <- !app_assoc. reflexivity.
Qed.

Lemma Sha512String_run (b : bytes) (s : State) :
  Sha512String b s =
  (Returned (digest EVP_sha512 b), after_digest EVP_sha512 b s).
Proof.
  unfold Sha512String, bind, EVP_DigestInit_ex, EVP_DigestUpdate,
    EVP_DigestFinal_ex, CRYPTO_CHECK, ret, after_digest, log, set_md_ctx.
  cbn. rewrite firstn_md_len, <- !app_assoc. reflexivity.
Qed.

(** What re-initialisation is for: input absorbed without it is appended
    to whatever the previous call left in the digest state. *)
Lemma update_without_init_keeps_residue
      (md : EVP_MD) (a b : bytes) (s : State) :
  fst ((ok <- EVP_DigestUpdate b ;; EVP_DigestFinal_ex) (after_digest md a s)) =
  Returned (1, digest md (a ++ b), Z.of_nat (length (digest md (a ++ b)))).
Proof. reflexivity. Qed.

Context {ES : EngineSpec E}.

Lemma digest_length (md : EVP_MD) (b : bytes) :
  length (digest md b) = Z.to_nat (EVP_MD_size md).
Proof. rewrite <- (digest_size md b). symmetry. apply Nat2Z.id. Qed.

(** C9: Hash256 yields 32 bytes and Hash512 yields 64 bytes, and the
    value a call returns does not depend on the state of the Context it
    starts from: it is the same after any sequence of digest calls made
    since an earlier call with the same input.  This is so because every
    call fully re-initialises the shared digest state before absorbing
    its input: whatever the digest state held on entry, the first engine
    call is EVP_DigestInit_ex, followed by one update with exactly b and
    the finalisation; the value is the digest of b alone; and the digest
    state on exit holds the algorithm of this call and the input b and
    nothing of what it held before. *)
Theorem digest_deterministic_across_calls (b : bytes) (s : State) :
  (exists h, fst (Sha256String b s) = Returned h /\ length h = 32%nat) /\
  (exists h, fst (Sha512String b s) = Returned h /\ length h = 64%nat) /\
  (forall between : list DigestRequest,
      fst (Sha256String b (serve_all between (snd (Sha256String b s)))) =
      fst (Sha256String b s) /\
      fst (Sha512String b (serve_all between (snd (Sha512String b s)))) =
      fst (Sha512String b s)) /\
  (forall s' : State,
      fst (Sha256String b s') = fst (Sha256String b s) /\
      fst (Sha512String b s') = fst (Sha512String b s)) /\
  (fst (Sha256String b s) = Returned (digest EVP_sha256 b) /\
   calls (snd (Sha256String b s)) =
   calls s ++ [Call_EVP_DigestInit_ex EVP_sha256;
               Call_EVP_DigestUpdate b;
               Call_EVP_DigestFinal_ex] /\
   evp_md_ctx_ (snd (Sha256String b s)) =
   {| md_type := Some EVP_sha256; md_input := b |} /\
   hmac_ctx_ (snd (Sha256String b s)) = hmac_ctx_ s /\
   rand_ (snd (Sha256String b s)) = rand_ s) /\
  (fst (Sha512String b s) = Returned (digest EVP_sha512 b) /\
   calls (snd (Sha512String b s)) =
   calls s ++ [Call_EVP_DigestInit_ex EVP_sha512;
               Call_EVP_DigestUpdate b;
               Call_EVP_DigestFinal_ex] /\
   evp_md_ctx_ (snd (Sha512String b s)) =
   {| md_type := Some EVP_sha512; md_input := b |} /\
   hmac_ctx_ (snd (Sha512String b s)) = hmac_ctx_ s /\
   rand_ (snd (Sha512String b s)) = rand_ s) /\
  (forall between : list DigestRequest,
      evp_md_ctx_
        (snd (Sha256String b (serve_all between (snd (Sha512String b s))))) =
      {| md_type := Some EVP_sha256; md_input := b |} /\
      evp_md_ctx_
        (snd (Sha512String b (serve_all between (snd (Sha256String b s))))) =
      {| md_type := Some EVP_sha512; md_input := b |}).
Proof.
  split; [| split; [| split; [| split; [| split; [| split]]]]];
    [| | | | rewrite Sha256String_run; repeat split
           | rewrite Sha512String_run; repeat split
           | intros between;
             split; [rewrite Sha256String_run | rewrite Sha512String_run];
             reflexivity].
  - exists (digest EVP_sha256 b). rewrite Sha256String_run.
    split; [reflexivity | apply (digest_length EVP_sha256)].
  - exists (digest EVP_sha512 b). rewrite Sha512String_run.
    split; [reflexivity | apply (digest_length EVP_sha512)].
  - intros between.
    split; [now rewrite !Sha256String_run | now rewrite !Sha512String_run].
  - intros s'.
    split; [now rewrite !Sha256String_run | now rewrite !Sha512String_run].
Qed.

End DigestProperties.

(** ** Running the monad *)

Section MonadProperties.

Context {E : Engine}.

Lemma bind_Returned {A B} (m : M A) (k : A -> M B) (s s' : State) (a : A) :
  m s = (Returned a, s') -> bind m k s = k a s'.
Proof. intros H. unfold bind. rewrite H. reflexivity. Qed.

Lemma CHECK_true {B} (k : unit -> M B) (s : State) :
  bind (CHECK true) k s = k tt s.
Proof. reflexivity. Qed.

Lemma CHECK_false {B} (k : unit -> M B) (s : State) :
  bind (CHECK false) k s = (Aborted CheckFailed, s).
Proof. reflexivity. Qed.

End MonadProperties.

Ltac div_lia := Z.to_euclidean_division_equations; lia.

(** ** The random oracle *)

Section RandomOracleProperties.

Context {E : Engine}.

(** Reading a byte string big-endian, continuing from [acc]. *)
Lemma of_bytes_from (acc : Z) (bs : bytes) :
  fold_left (fun a b => a * 256 + BigNum.byte_val b) bs acc =
  acc * 256 ^ Z.of_nat (length bs) + BigNum.of_bytes bs.
Proof.
  unfold BigNum.of_bytes. revert acc.
  induction bs as [| b bs IH]; intros acc.
  - cbn. lia.
  - cbn [fold_left length]. rewrite IH, (IH (0 * 256 + _)).
    rewrite Nat2Z.inj_succ, Z.pow_succ_r by lia. ring.
Qed.

Lemma of_bytes_app (a b : bytes) :
  BigNum.of_bytes (a ++ b) =
  BigNum.of_bytes a * 256 ^ Z.of_nat (length b) + BigNum.of_bytes b.
Proof.
  unfold BigNum.of_bytes at 1. rewrite fold_left_app.
  fold (BigNum.of_bytes a). apply of_bytes_from.
Qed.

(** One shift-and-add step of the loop appends a 64-byte block. *)
Lemma shift_add_block (acc : bytes) (h : bytes) :
  length h = 64%nat ->
  BigNum.Lshift (BigNum.of_bytes acc) 512 + CreateBigNum_bytes h =
  BigNum.of_bytes (acc ++ h).
Proof.
  intros Hlen. unfold BigNum.Lshift, CreateBigNum_bytes.
  rewrite of_bytes_app, Hlen, Z.shiftl_mul_pow2 by lia.
  reflexivity.
Qed.

Lemma counter_bytes (i : nat) :
  (i <= 255)%nat ->
  BigNum.ToBytes (CreateBigNum (Z.of_nat i)) = BigNum.ToBytes (Z.of_nat i).
Proof.
  intros H. unfold CreateBigNum, BigNum.of_uint64.
  rewrite Z.mod_small; [reflexivity | lia].
Qed.

Context {ES : EngineSpec E}.

(** The loop, started at counter [i] with the blocks [acc] already
    concatenated, appends the blocks of the counters [i .. i + n - 1]. *)
Lemma RandomOracle_loop_run (n : nat) (x : bytes) :
  forall (i : nat) (acc : bytes) (s : State),
    (i + n <= 255)%nat ->
    exists s',
      RandomOracle_loop n x (Z.of_nat i) (BigNum.of_bytes acc) s =
      (Returned
         (BigNum.of_bytes
            (acc ++
             concat (map (fun j => digest EVP_sha512
                                     (BigNum.ToBytes (Z.of_nat j) ++ x))
                         (seq i n)))), s').
Proof.
  induction n as [| n IH]; intros i acc s Hi.
  - exists s. cbn. rewrite app_nil_r. reflexivity.
  - cbn [RandomOracle_loop seq map concat].
    rewrite (bind_Returned _ _ _ _ _ (Sha512String_run _ s)).
    rewrite counter_bytes by lia.
    rewrite shift_add_block by apply (digest_length EVP_sha512).
    replace (int_add (Z.of_nat i) 1) with (Z.of_nat (S i)).
    + destruct (IH (S i) (acc ++ digest EVP_sha512
                                (BigNum.ToBytes (Z.of_nat i) ++ x))
                   (after_digest EVP_sha512
                      (BigNum.ToBytes (Z.of_nat i) ++ x) s)
                   ltac:(lia)) as [s' Hs'].
      exists s'. rewrite Hs', <- app_assoc. reflexivity.
    + unfold int_add. rewrite wrap_int_id; unfold INT_MAX; lia.
Qed.

(** C4: RandomOracle stops on its CHECK, with the Context untouched and
    no call made into the engine, exactly when the block count
    k = ceil((bitlength(max_value) + 512) / 512) is at least 255, that is
    exactly when bitlength(max_value) + 512 exceeds 130048; below that
    the CHECK does not stop it.  The bit length plus 512 is an [int]. *)
Theorem RandomOracle_domain_check (x : bytes) (max_value : Z) (s : State) :
  BigNum.BitLength max_value + 512 <= INT_MAX ->
  let L := BigNum.BitLength max_value + 512 in
  let k := (L + 511) / 512 in
  (255 <= k <-> 130048 < L) /\
  (fst (RandomOracle x max_value s) = Aborted CheckFailed <-> 255 <= k) /\
  (255 <= k -> RandomOracle x max_value s = (Aborted CheckFailed, s)).
Proof.
  intros Hint L k.
  pose proof (BitLength_nonneg max_value) as HB.
  assert (Hk : 255 <= k <-> 130048 < L) by (unfold k; div_lia).
  assert (Habort : 255 <= k ->
                   RandomOracle x max_value s = (Aborted CheckFailed, s)).
  { intros Hbig. unfold RandomOracle.
    assert (255 <= ceil_float_div
                     (float_of_int
                        (int_add (BigNum.BitLength max_value) 512)) 512)
      as Hit.
    { destruct (Z_lt_le_dec L (2 ^ 24)) as [Hs | Hl].
      - rewrite iter_count_small by (fold L; lia). exact Hbig.
      - apply iter_count_large; fold L; lia. }
    destruct (Z.ltb_spec
                (ceil_float_div
                   (float_of_int
                      (int_add (BigNum.BitLength max_value) 512)) 512) 255);
      [lia | apply CHECK_false]. }
  split; [exact Hk | split; [split |]].
  - intros Hab. destruct (Z_lt_le_dec k 255) as [Hsmall | Hbig];
      [exfalso | exact Hbig].
    assert (HL : L <= 130048) by lia.
    unfold RandomOracle in Hab.
    rewrite iter_count_small in Hab by (fold L; lia). fold L k in Hab.
    destruct (Z.ltb_spec k 255); [| lia].
    rewrite CHECK_true in Hab.
    destruct (RandomOracle_loop_run (Z.to_nat k) x 1 [] s ltac:(lia))
      as [s' Hs'].
    change (CreateBigNum 0) with (BigNum.of_bytes []) in Hab.
    change 1 with (Z.of_nat 1) in Hab at 1.
    rewrite (bind_Returned _ _ _ _ _ Hs') in Hab.
    unfold BigNum.Mod, checked in Hab.
    destruct (0 <? max_value) in Hab; discriminate Hab.
  - intros Hbig. rewrite (Habort Hbig). reflexivity.
  - exact Habort.
Qed.

(** C1: for max_value > 0 with L = bitlength(max_value) + 512 at most
    130048, RandomOracle returns the counter-mode expansion of the
    specification: the SHA-512 blocks of (byte-encoding of i) || x for
    i = 1..k, k = ceil(L / 512), concatenated with block 1 most
    significant, shifted right by k*512 - L bits and reduced modulo
    max_value; the value lies in [0, max_value). *)
Theorem RandomOracle_is_counter_mode_expansion
        (x : bytes) (max_value : Z) (s : State) :
  0 < max_value ->
  BigNum.BitLength max_value + 512 <= 130048 ->
  fst (RandomOracle x max_value s) =
  Returned (spec_oracle_expansion x max_value) /\
  0 <= spec_oracle_expansion x max_value < max_value.
Proof.
  intros Hmax HL.
  pose proof (BitLength_nonneg max_value) as HB.
  split; [| unfold spec_oracle_expansion; apply Z.mod_pos_bound; exact Hmax].
  unfold RandomOracle, spec_oracle_expansion, spec_oracle_blocks.
  rewrite iter_count_small by lia.
  set (L := BigNum.BitLength max_value + 512) in *.
  set (k := (L + 511) / 512).
  assert (Hk : 1 <= k <= 254) by (unfold k; div_lia).
  assert (Hex : 0 <= k * 512 - L <= 511) by (unfold k; div_lia).
  destruct (Z.ltb_spec k 255); [| lia].
  rewrite CHECK_true.
  destruct (RandomOracle_loop_run (Z.to_nat k) x 1 [] s ltac:(lia))
    as [s' Hs'].
  change (CreateBigNum 0) with (BigNum.of_bytes []).
  change 1 with (Z.of_nat 1) at 1.
  rewrite (bind_Returned _ _ _ _ _ Hs'). cbn [app].
  replace (int_sub (int_mul k 512) (int_add (BigNum.BitLength max_value) 512))
    with (k * 512 - L).
  - unfold BigNum.Mod, BigNum.Rshift, checked.
    destruct (Z.ltb_spec 0 max_value); [| lia].
    reflexivity.
  - unfold int_sub, int_mul, int_add. fold L.
    rewrite (wrap_int_id (k * 512)) by (unfold INT_MAX; lia).
    rewrite (wrap_int_id L) by (unfold INT_MAX; lia).
    rewrite wrap_int_id by (unfold INT_MAX; lia). reflexivity.
Qed.

End RandomOracleProperties.

(** ** The pseudorandom function *)

Section PRFProperties.

Context {E : Engine}.

Lemma PRF_unfold (fuel : nat) (key data : bytes) (max_value : Z) :
  PRF fuel key data max_value =
  (CHECK (80 <=? wrap_size_t (Z.of_nat (length key) * 8)) ;;
   CHECK (BigNum.BitLength max_value <=? 512) ;;
   ok <- HMAC_Init_ex key EVP_sha512 ;;
   CRYPTO_CHECK (1 =? ok) ;;
   ok <- HMAC_Update data ;;
   CRYPTO_CHECK (1 =? ok) ;;
   ' (ok, hash, md_len) <- HMAC_Final ;;
   CRYPTO_CHECK (1 =? ok) ;;
   let hash_bn := BigNum.of_bytes (firstn (Z.to_nat md_len) hash) in
   let hash_bn_reduced :=
     BigNum.GetLastNBits hash_bn (BigNum.BitLength max_value) in
   if hash_bn_reduced <? max_value then ret hash_bn_reduced
   else
     match fuel with
     | O => out_of_fuel
     | S fuel' => PRF fuel' key (BigNum.ToBytes hash_bn) max_value
     end)%ctx.
Proof. destruct fuel; reflexivity. Qed.

Lemma key_size_check (key : bytes) :
  Z.of_nat (length key) * 8 <= SIZE_MAX ->
  (80 <=? wrap_size_t (Z.of_nat (length key) * 8)) =
  (10 <=? Z.of_nat (length key)).
Proof.
  intros H. rewrite wrap_size_t_id by lia.
  destruct (Z.leb_spec 80 (Z.of_nat (length key) * 8));
    destruct (Z.leb_spec 10 (Z.of_nat (length key))); lia || reflexivity.
Qed.

Lemma GetLastNBits_mod (a n : Z) :
  0 <= n -> BigNum.GetLastNBits a n = a mod 2 ^ n.
Proof. intros H. unfold BigNum.GetLastNBits. apply Z.land_ones. exact H. Qed.

(** One round, once both precondition checks have passed. *)
Lemma PRF_round (fuel : nat) (key data : bytes) (max_value : Z) (s : State) :
  (10 <= length key)%nat ->
  Z.of_nat (length key) * 8 <= SIZE_MAX ->
  BigNum.BitLength max_value <= 512 ->
  PRF fuel key data max_value s =
  if spec_prf_candidate key data max_value <? max_value
  then (Returned (spec_prf_candidate key data max_value), after_hmac key data s)
  else
    match fuel with
    | O => (OutOfFuel, after_hmac key data s)
    | S fuel' =>
        PRF fuel' key (BigNum.ToBytes (spec_prf_hash key data)) max_value
            (after_hmac key data s)
    end.
Proof.
  intros Hkey Hsize Hbits. rewrite PRF_unfold.
  rewrite key_size_check by exact Hsize.
  destruct (Z.leb_spec 10 (Z.of_nat (length key))); [| lia].
  rewrite CHECK_true.
  destruct (Z.leb_spec (BigNum.BitLength max_value) 512); [| lia].
  rewrite CHECK_true.
  unfold bind, HMAC_Init_ex, HMAC_Update, HMAC_Final, CRYPTO_CHECK, ret,
    out_of_fuel, log, set_hmac_ctx.
  cbn. rewrite firstn_md_len, <- !app_assoc. cbn [app].
  rewrite GetLastNBits_mod by apply BitLength_nonneg.
  fold (spec_prf_hash key data). fold (spec_prf_candidate key data max_value).
  fold (after_hmac key data s).
  destruct (spec_prf_candidate key data max_value <? max_value);
    [reflexivity | destruct fuel; reflexivity].
Qed.

Lemma prf_data_next (key data : bytes) (j : nat) :
  spec_prf_data key (BigNum.ToBytes (spec_prf_hash key data)) j =
  spec_prf_data key data (S j).
Proof.
  induction j as [| j IH]; [reflexivity |].
  cbn [spec_prf_data] in *. rewrite IH. reflexivity.
Qed.

Lemma prf_candidate_nonneg (key data : bytes) (max_value : Z) :
  0 <= spec_prf_candidate key data max_value.
Proof.
  unfold spec_prf_candidate. apply Z.mod_pos_bound.
  apply Z.pow_pos_nonneg; [lia | apply BitLength_nonneg].
Qed.

(** What a run with [fuel] nested calls yields: the first accepted
    candidate of the chain, or nothing when the first [fuel + 1]
    candidates are all rejected; never an abort. *)
Lemma PRF_outcome (key : bytes) (max_value : Z) :
  (10 <= length key)%nat ->
  Z.of_nat (length key) * 8 <= SIZE_MAX ->
  BigNum.BitLength max_value <= 512 ->
  forall (fuel : nat) (data : bytes) (s : State),
    match fst (PRF fuel key data max_value s) with
    | Returned v =>
        0 <= v < max_value /\
        exists j, (j <= fuel)%nat /\
                  v = spec_prf_candidate key (spec_prf_data key data j)
                                         max_value /\
                  forall i, (i < j)%nat ->
                    max_value <=
                    spec_prf_candidate key (spec_prf_data key data i) max_value
    | OutOfFuel =>
        forall i, (i <= fuel)%nat ->
          max_value <=
          spec_prf_candidate key (spec_prf_data key data i) max_value
    | Aborted _ => False
    end.
Proof.
  intros Hkey Hsize Hbits.
  induction fuel as [| fuel IH]; intros data s;
    rewrite PRF_round by assumption;
    destruct (Z.ltb_spec (spec_prf_candidate key data max_value) max_value)
      as [Hacc | Hrej].
  - cbn [fst]. pose proof (prf_candidate_nonneg key data max_value).
    split; [lia |].
    exists 0%nat. repeat split; [lia | intros i Hi; lia].
  - cbn [fst]. intros i Hi. replace i with 0%nat by lia. exact Hrej.
  - cbn [fst]. pose proof (prf_candidate_nonneg key data max_value).
    split; [lia |].
    exists 0%nat. repeat split; [lia | intros i Hi; lia].
  - specialize (IH (BigNum.ToBytes (spec_prf_hash key data))
                   (after_hmac key data s)).
    destruct (fst (PRF fuel key (BigNum.ToBytes (spec_prf_hash key data))
                       max_value (after_hmac key data s)))
      as [v | why |].
    + destruct IH as [Hv [j [Hj [Heq Hprev]]]].
      split; [exact Hv |].
      exists (S j). split; [lia | split].
      * rewrite <- prf_data_next. exact Heq.
      * intros [| i] Hi; [exact Hrej |].
        rewrite <- prf_data_next. apply Hprev. lia.
    + exact IH.
    + intros [| i] Hi; [exact Hrej |].
      rewrite <- prf_data_next. apply IH. lia.
Qed.

(** A byte string of [n] bytes is a number below 256^n. *)
Lemma of_bytes_bound (bs : bytes) :
  0 <= BigNum.of_bytes bs < 256 ^ Z.of_nat (length bs).
Proof.
  induction bs as [| b bs IH].
  - cbn. lia.
  - change (b :: bs) with ([b] ++ bs). rewrite of_bytes_app.
    cbn [app length]. rewrite Nat2Z.inj_succ, Z.pow_succ_r by lia.
    assert (Hb : 0 <= BigNum.of_bytes [b] <= 255).
    { unfold BigNum.of_bytes, BigNum.byte_val. cbn [fold_left].
      pose proof (Byte.to_N_bounded b). lia. }
    nia.
Qed.



(** C3: PRF stops on a precondition CHECK exactly when the key is shorter
    than 10 bytes or bitlength(max_value) exceeds 512, and then the
    Context is untouched: no keyed-hash call has been made.  When both
    preconditions hold it does not abort at all.  (The key length in bits
    is a [size_t].) *)
Theorem PRF_precondition_checks
        (fuel : nat) (key data : bytes) (max_value : Z) (s : State) :
  Z.of_nat (length key) * 8 <= SIZE_MAX ->
  (fst (PRF fuel key data max_value s) = Aborted CheckFailed <->
   (length key < 10)%nat \/ 512 < BigNum.BitLength max_value) /\
  ((length key < 10)%nat \/ 512 < BigNum.BitLength max_value ->
   PRF fuel key data max_value s = (Aborted CheckFailed, s)) /\
  ((10 <= length key)%nat -> BigNum.BitLength max_value <= 512 ->
   forall why, fst (PRF fuel key data max_value s) <> Aborted why).
Proof.
  intros Hsize.
  assert (Hviol : (length key < 10)%nat \/ 512 < BigNum.BitLength max_value ->
                  PRF fuel key data max_value s = (Aborted CheckFailed, s)).
  { intros Hv. rewrite PRF_unfold, key_size_check by exact Hsize.
    destruct (Z.leb_spec 10 (Z.of_nat (length key))) as [Hk | Hk];
      [| apply CHECK_false].
    rewrite CHECK_true.
    destruct (Z.leb_spec (BigNum.BitLength max_value) 512);
      [lia | apply CHECK_false]. }
  assert (Hok : (10 <= length key)%nat -> BigNum.BitLength max_value <= 512 ->
                forall why, fst (PRF fuel key data max_value s) <> Aborted why).
  { intros Hkey Hbits why Hab.
    pose proof (PRF_outcome key max_value Hkey Hsize Hbits fuel data s) as H.
    rewrite Hab in H. exact H. }
  split; [split | split; assumption].
  - intros Hab.
    destruct (Nat.lt_ge_cases (length key) 10) as [Hk | Hk]; [now left |].
    destruct (Z_lt_le_dec 512 (BigNum.BitLength max_value)) as [Hb | Hb];
      [now right |].
    exfalso. exact (Hok Hk Hb _ Hab).
  - intros Hv. rewrite (Hviol Hv). reflexivity.
Qed.

End PRFProperties.

(** ** The randomness source *)

Section RandomnessProperties.

Context {E : Engine}.

Lemma GenerateRandLessThan_run (max_value : Z) (s : State) :
  GenerateRandLessThan max_value s =
  match fst (rand_range (rand_ s) max_value) with
  | Some r => (Returned r, after_draw max_value s)
  | None => (Aborted EngineFailed, after_draw max_value s)
  end.
Proof.
  unfold GenerateRandLessThan, bind, BN_rand_range, after_draw, log, set_rand.
  destruct (rand_range (rand_ s) max_value) as [[r |] g]; reflexivity.
Qed.

Lemma calls_after_draw (range : Z) (s : State) :
  calls (after_draw range s) =
  calls s ++ [Call_BN_rand_range range (fst (rand_range (rand_ s) range))].
Proof. reflexivity. Qed.

Context {ES : EngineSpec E}.

(** A draw below a positive bound succeeds and is in range. *)
Lemma GenerateRandLessThan_valid (max_value : Z) (s : State) :
  0 < max_value ->
  exists r,
    fst (rand_range (rand_ s) max_value) = Some r /\
    GenerateRandLessThan max_value s = (Returned r, after_draw max_value s) /\
    0 <= r < max_value.
Proof.
  intros Hpos. rewrite GenerateRandLessThan_run.
  pose proof (rand_range_valid (rand_ s) max_value Hpos) as Hsome.
  pose proof (rand_range_bound (rand_ s) max_value) as Hbound.
  destruct (fst (rand_range (rand_ s) max_value)) as [r |];
    [| contradiction].
  exists r. auto.
Qed.

(** C5 (as the code has it): RandomLessThan makes no check of its own.
    It hands the bound to the engine's range sampler and aborts only on
    the failure that call reports, which is what happens for a
    non-positive bound: the abort follows the engine call.  For every
    bound > 0 it returns a value in [0, bound). *)
Theorem GenerateRandLessThan_delegates_to_engine (bound : Z) (s : State) :
  (bound <= 0 ->
   GenerateRandLessThan bound s = (Aborted EngineFailed, after_draw bound s) /\
   calls (after_draw bound s) = calls s ++ [Call_BN_rand_range bound None]) /\
  (0 < bound ->
   exists r, GenerateRandLessThan bound s = (Returned r, after_draw bound s) /\
             0 <= r < bound).
Proof.
  split.
  - intros Hbad. rewrite GenerateRandLessThan_run, calls_after_draw.
    rewrite (rand_range_invalid (rand_ s) bound Hbad). split; reflexivity.
  - intros Hpos.
    destruct (GenerateRandLessThan_valid bound s Hpos) as [r [_ [Hrun Hr]]].
    exists r. split; assumption.
Qed.

(** C6: for start < end, RandomBetween returns start plus the draw of
    RandomLessThan(end - start), a value in [start, end); for
    start >= end it aborts on its CHECK with the Context untouched, so
    before any sampling. *)
Theorem GenerateRandBetween_spec (start end_ : Z) (s : State) :
  (start < end_ ->
   exists r s',
     GenerateRandLessThan (end_ - start) s = (Returned r, s') /\
     GenerateRandBetween start end_ s = (Returned (start + r), s') /\
     start <= start + r < end_) /\
  (end_ <= start ->
   GenerateRandBetween start end_ s = (Aborted CheckFailed, s)).
Proof.
  unfold GenerateRandBetween. split.
  - intros Hlt.
    destruct (GenerateRandLessThan_valid (end_ - start) s ltac:(lia))
      as [r [_ [Hrun Hr]]].
    exists r, (after_draw (end_ - start) s).
    destruct (Z.ltb_spec start end_); [| lia].
    rewrite CHECK_true, (bind_Returned _ _ _ _ _ Hrun).
    repeat split; try lia; try assumption.
    unfold ret. rewrite Z.add_comm. reflexivity.
  - intros Hge. destruct (Z.ltb_spec start end_); [lia |].
    apply CHECK_false.
Qed.

(** C7: RandomBytes(n) returns exactly n bytes for every n >= 0, the
    empty string for n = 0, and aborts if and only if n < 0, in which
    case the Context is untouched: no random generation was attempted. *)
Theorem GenerateRandomBytes_spec (num_bytes : Z) (s : State) :
  (0 <= num_bytes ->
   exists bs s',
     GenerateRandomBytes num_bytes s = (Returned bs, s') /\
     Z.of_nat (length bs) = num_bytes /\
     (num_bytes = 0 -> bs = [])) /\
  (num_bytes < 0 ->
   GenerateRandomBytes num_bytes s = (Aborted CheckFailed, s)) /\
  ((exists why, fst (GenerateRandomBytes num_bytes s) = Aborted why) <->
   num_bytes < 0).
Proof.
  assert (Hok : 0 <= num_bytes ->
                exists bs s',
                  GenerateRandomBytes num_bytes s = (Returned bs, s') /\
                  Z.of_nat (length bs) = num_bytes /\
                  (num_bytes = 0 -> bs = [])).
  { intros Hn. unfold GenerateRandomBytes.
    destruct (Z.leb_spec 0 num_bytes); [| lia].
    rewrite CHECK_true. unfold bind, RAND_bytes.
    destruct (rand_bytes_valid (rand_ s) num_bytes Hn) as [bs [Hbs Hlen]].
    destruct (rand_bytes (rand_ s) num_bytes) as [o g]. cbn [fst] in Hbs.
    subst o. cbn.
    assert (Hall : firstn (Z.to_nat num_bytes) bs = bs).
    { rewrite <- Hlen, Nat2Z.id. apply firstn_all. }
    rewrite Hall. eexists _, _. split; [reflexivity | split; [exact Hlen |]].
    intros H0. destruct bs; [reflexivity | cbn in Hlen; lia]. }
  assert (Hbad : num_bytes < 0 ->
                 GenerateRandomBytes num_bytes s = (Aborted CheckFailed, s)).
  { intros Hn. unfold GenerateRandomBytes.
    destruct (Z.leb_spec 0 num_bytes); [lia | apply CHECK_false]. }
  split; [exact Hok | split; [exact Hbad | split]].
  - intros [why Hab]. destruct (Z_lt_le_dec num_bytes 0) as [Hn | Hn];
      [exact Hn | exfalso].
    destruct (Hok Hn) as [bs [s' [Hrun _]]].
    rewrite Hrun in Hab. discriminate Hab.
  - intros Hn. exists CheckFailed. rewrite (Hbad Hn). reflexivity.
Qed.

End RandomnessProperties.

(** ** Sampling a unit modulo [num] *)

Section RelativelyPrimeProperties.

Context {E : Engine} {ES : EngineSpec E}.

Lemma RelativelyPrime_loop_unfold (fuel : nat) (num rand_num : Z) :
  RelativelyPrime_loop fuel num rand_num =
  if One <? BigNum.Gcd rand_num num then
    match fuel with
    | O => out_of_fuel
    | S fuel' =>
        (rand_num <- GenerateRandLessThan num ;;
         RelativelyPrime_loop fuel' num rand_num)%ctx
    end
  else ret rand_num.
Proof. destruct fuel; reflexivity. Qed.

(** A candidate the loop lets through is coprime to [num]. *)
Lemma accepted_is_coprime (num c : Z) :
  1 < num -> ~ (One < BigNum.Gcd c num) -> Z.gcd c num = 1.
Proof.
  intros Hnum Hle. change One with 1 in Hle. unfold BigNum.Gcd in Hle.
  pose proof (Z.gcd_nonneg c num) as H0.
  assert (Z.gcd c num <> 0).
  { intros Hz. apply Z.gcd_eq_0_r in Hz. lia. }
  lia.
Qed.

(** The loop entered with the candidate [rand_num]: the samples it goes
    on to draw, and what becomes of them. *)
Lemma RelativelyPrime_loop_outcome (num : Z) :
  1 < num ->
  forall (fuel : nat) (rand_num : Z) (s : State),
    0 <= rand_num < num ->
    match RelativelyPrime_loop fuel num rand_num s with
    | (Returned r, s') =>
        0 <= r < num /\ Z.gcd r num = 1 /\
        exists rejected drawn,
          rand_num :: drawn = rejected ++ [r] /\
          (length rejected <= fuel)%nat /\
          Forall (fun c => 1 < Z.gcd c num) rejected /\
          calls s' =
          calls s ++ map (fun c => Call_BN_rand_range num (Some c)) drawn
    | (OutOfFuel, s') =>
        exists drawn,
          length drawn = fuel /\
          Forall (fun c => 1 < Z.gcd c num) (rand_num :: drawn) /\
          calls s' =
          calls s ++ map (fun c => Call_BN_rand_range num (Some c)) drawn
    | (Aborted _, _) => False
    end.
Proof.
  intros Hnum.
  induction fuel as [| fuel IH]; intros rand_num s Hr;
    rewrite RelativelyPrime_loop_unfold;
    destruct (Z.ltb_spec One (BigNum.Gcd rand_num num)) as [Hrej | Hacc].
  - exists []. cbn. rewrite app_nil_r.
    repeat split; [constructor; [exact Hrej | constructor]].
  - cbn. split; [exact Hr | split; [apply accepted_is_coprime; lia |]].
    exists [], []. cbn. rewrite app_nil_r.
    repeat split; [lia | constructor].
  - destruct (GenerateRandLessThan_valid num s ltac:(lia))
      as [c [Hc [Hrun Hrange]]].
    rewrite (bind_Returned _ _ _ _ _ Hrun).
    specialize (IH c (after_draw num s) Hrange).
    destruct (RelativelyPrime_loop fuel num c (after_draw num s))
      as [[r | why |] s'].
    + destruct IH
        as [Hr' [Hgcd [rejected [drawn [Hsplit [Hlen [Hall Hcalls]]]]]]].
      split; [exact Hr' | split; [exact Hgcd |]].
      exists (rand_num :: rejected), (c :: drawn).
      split; [cbn; rewrite Hsplit; reflexivity |].
      split; [cbn; lia |].
      split; [constructor; [exact Hrej | exact Hall] |].
      rewrite Hcalls, calls_after_draw, Hc, <- app_assoc. reflexivity.
    + exact IH.
    + destruct IH as [drawn [Hlen [Hall Hcalls]]].
      exists (c :: drawn).
      split; [cbn; lia |].
      split; [constructor; [exact Hrej | exact Hall] |].
      rewrite Hcalls, calls_after_draw, Hc, <- app_assoc. reflexivity.
  - cbn. split; [exact Hr | split; [apply accepted_is_coprime; lia |]].
    exists [], []. cbn. rewrite app_nil_r.
    repeat split; [lia | constructor].
Qed.

(** C8: for n > 1, a value returned by RelativelyPrimeRandomLessThan(n)
    lies in [0, n) and is coprime to n.  It is the last of a run of
    RandomLessThan(n) samples of which every earlier one was rejected for
    having a gcd with n above 1; the loop goes on for as long as samples
    are rejected and stops at the first one that is not. *)
Theorem RelativelyPrimeRandomLessThan_spec (fuel : nat) (n : Z) (s : State) :
  1 < n ->
  match RelativelyPrimeRandomLessThan fuel n s with
  | (Returned r, s') =>
      0 <= r < n /\ Z.gcd r n = 1 /\
      exists rejected,
        (length rejected <= fuel)%nat /\
        Forall (fun c => 1 < Z.gcd c n) rejected /\
        calls s' =
        calls s ++
        map (fun c => Call_BN_rand_range n (Some c)) (rejected ++ [r])
  | (OutOfFuel, s') =>
      exists rejected,
        length rejected = S fuel /\
        Forall (fun c => 1 < Z.gcd c n) rejected /\
        calls s' =
        calls s ++ map (fun c => Call_BN_rand_range n (Some c)) rejected
  | (Aborted _, _) => False
  end.
Proof.
  intros Hn. unfold RelativelyPrimeRandomLessThan.
  destruct (GenerateRandLessThan_valid n s ltac:(lia))
    as [c [Hc [Hrun Hrange]]].
  rewrite (bind_Returned _ _ _ _ _ Hrun).
  pose proof (RelativelyPrime_loop_outcome n Hn fuel c (after_draw n s) Hrange)
    as H.
  destruct (RelativelyPrime_loop fuel n c (after_draw n s))
    as [[r | why |] s'].
  - destruct H as [Hr [Hgcd [rejected [drawn [Hsplit [Hlen [Hall Hcalls]]]]]]].
    split; [exact Hr | split; [exact Hgcd |]].
    exists rejected. split; [exact Hlen | split; [exact Hall |]].
    unfold BigNum.t in *.
    rewrite <- Hsplit, Hcalls, calls_after_draw, Hc, <- app_assoc.
    reflexivity.
  - exact H.
  - destruct H as [drawn [Hlen [Hall Hcalls]]].
    exists (c :: drawn). split; [cbn; lia | split; [exact Hall |]].
    rewrite Hcalls, calls_after_draw, Hc, <- app_assoc. reflexivity.
Qed.

(** C10: RelativelyPrimeRandomLessThan(1) needs no second sample and
    returns 0: the only sample below 1 is 0, and gcd(0, 1) = 1 does not
    exceed 1, so the loop body never runs. *)
Theorem RelativelyPrimeRandomLessThan_one (fuel : nat) (s : State) :
  RelativelyPrimeRandomLessThan fuel 1 s = (Returned 0, after_draw 1 s) /\
  calls (after_draw 1 s) = calls s ++ [Call_BN_rand_range 1 (Some 0)].
Proof.
  destruct (GenerateRandLessThan_valid 1 s ltac:(lia))
    as [c [Hc [Hrun Hrange]]].
  assert (c = 0) by lia. subst c.
  split.
  - unfold RelativelyPrimeRandomLessThan.
    rewrite (bind_Returned _ _ _ _ _ Hrun), RelativelyPrime_loop_unfold.
    reflexivity.
  - rewrite calls_after_draw, Hc. reflexivity.
Qed.

End RelativelyPrimeProperties.

(** ** The methods on the test engine *)

#[local] Existing Instance TestEngine.engine.

Lemma test_engine_spec : EngineSpec TestEngine.engine.
Proof.
  constructor.
  - intros md m. cbn. unfold TestEngine.test_digest.
    rewrite repeat_length, Z2Nat.id; [reflexivity | destruct md; cbn; lia].
  - intros md key m. cbn. unfold TestEngine.test_digest.
    rewrite repeat_length, Z2Nat.id; [reflexivity | destruct md; cbn; lia].
  - intros s range r. cbn.
    destruct (Z.ltb_spec 0 range) as [Hpos | Hbad]; [| discriminate].
    intros Hr. injection Hr as <-. apply Z.mod_pos_bound. exact Hpos.
  - intros s range Hpos. cbn.
    destruct (Z.ltb_spec 0 range); [discriminate | lia].
  - intros s range Hbad. cbn.
    destruct (Z.ltb_spec 0 range); [lia | reflexivity].
  - intros s num Hnum. cbn. destruct (Z.leb_spec 0 num); [| lia].
    eexists. split; [reflexivity |].
    rewrite repeat_length. apply Z2Nat.id. exact Hnum.
Qed.

(** *** Worked examples *)

Example float_of_int_ties_to_even :
  float_of_int 16777216 = 16777216 /\
  float_of_int 16777217 = 16777216 /\
  float_of_int 16777219 = 16777220 /\
  float_of_int INT_MAX = 2 ^ 31.
Proof. repeat split. Qed.

Example iter_count_at_the_limit :
  ceil_float_div (float_of_int (int_add 129536 512)) 512 = 254 /\
  ceil_float_div (float_of_int (int_add 129537 512)) 512 = 255.
Proof. split; reflexivity. Qed.

Example ToBytes_is_minimal_big_endian :
  BigNum.ToBytes 0 = [] /\
  BigNum.ToBytes 1 = [x01] /\
  BigNum.ToBytes 258 = [x01; x02] /\
  BigNum.of_bytes [x00; x01; x02] = 258.
Proof. repeat split. Qed.

Example BitLength_examples :
  BigNum.BitLength 0 = 0 /\ BigNum.BitLength 1 = 1 /\
  BigNum.BitLength 255 = 8 /\ BigNum.BitLength 256 = 9.
Proof. repeat split. Qed.

(** A run of PRF with one rejected candidate (7, not below 5) followed by
    an accepted one (4): two keyed hashes are computed. *)
Example PRF_rejects_then_accepts :
  map (fun j => spec_prf_candidate TestEngine.key10
                  (spec_prf_data TestEngine.key10 TestEngine.hello j) 5)
      [0; 1]%nat = [7; 4] /\
  fst (PRF 5 TestEngine.key10 TestEngine.hello 5 (TestEngine.fresh 0)) =
  Returned 4 /\
  fst (PRF 0 TestEngine.key10 TestEngine.hello 5 (TestEngine.fresh 0)) =
  OutOfFuel /\
  length (calls (snd (PRF 5 TestEngine.key10 TestEngine.hello 5
                          (TestEngine.fresh 0)))) = 6%nat.
Proof. repeat split. Qed.

(** Sampling a unit modulo 6 from a generator that yields 0, 1, ...: the
    sample 0 is rejected (gcd 6), the sample 1 is returned. *)
Example RelativelyPrimeRandomLessThan_6 :
  RelativelyPrimeRandomLessThan 10 6 (TestEngine.fresh 0) =
  (Returned 1,
   {| evp_md_ctx_ := evp_md_ctx_ (TestEngine.fresh 0);
      hmac_ctx_ := hmac_ctx_ (TestEngine.fresh 0);
      rand_ := 2;
      calls := [Call_BN_rand_range 6 (Some 0);
                Call_BN_rand_range 6 (Some 1)] |}).
Proof. reflexivity. Qed.

Example GenerateRandBetween_inverted_range :
  GenerateRandBetween 7 7 (TestEngine.fresh 12) =
  (Aborted CheckFailed, TestEngine.fresh 12) /\
  fst (GenerateRandBetween 3 7 (TestEngine.fresh 12)) = Returned 3.
Proof. split; reflexivity. Qed.

Example GenerateRandomBytes_examples :
  fst (GenerateRandomBytes 3 (TestEngine.fresh 65)) =
  Returned [x41; x41; x41] /\
  fst (GenerateRandomBytes 0 (TestEngine.fresh 65)) = Returned [] /\
  GenerateRandomBytes (-1) (TestEngine.fresh 65) =
  (Aborted CheckFailed, TestEngine.fresh 65).
Proof. repeat split. Qed.

(** *** The theorems at concrete inputs *)

Lemma RandomOracle_is_counter_mode_expansion_witness :
  0 < 1000 /\
  BigNum.BitLength 1000 + 512 <= 130048 /\
  fst (RandomOracle TestEngine.hello 1000 (TestEngine.fresh 0)) =
  Returned (spec_oracle_expansion TestEngine.hello 1000) /\
  0 <= spec_oracle_expansion TestEngine.hello 1000 < 1000.
Proof.
  assert (H1 : 0 < 1000) by lia.
  assert (H2 : BigNum.BitLength 1000 + 512 <= 130048)
    by (vm_compute; discriminate).
  split; [exact H1 | split; [exact H2 |]].
  exact (@RandomOracle_is_counter_mode_expansion
           TestEngine.engine test_engine_spec
           TestEngine.hello 1000 (TestEngine.fresh 0) H1 H2).
Defined.


Lemma PRF_precondition_checks_witness :
  Z.of_nat (length TestEngine.hello) * 8 <= SIZE_MAX /\
  PRF 3 TestEngine.hello TestEngine.hello 4 (TestEngine.fresh 0) =
  (Aborted CheckFailed, TestEngine.fresh 0).
Proof.
  assert (H1 : Z.of_nat (length TestEngine.hello) * 8 <= SIZE_MAX)
    by (vm_compute; discriminate).
  split; [exact H1 |].
  apply (@PRF_precondition_checks
           TestEngine.engine 3 TestEngine.hello TestEngine.hello 4
           (TestEngine.fresh 0) H1).
  left. cbn. lia.
Defined.

Lemma RandomOracle_domain_check_witness :
  BigNum.BitLength (2 ^ 129536) + 512 <= INT_MAX /\
  RandomOracle TestEngine.hello (2 ^ 129536) (TestEngine.fresh 0) =
  (Aborted CheckFailed, TestEngine.fresh 0).
Proof.
  assert (H1 : BigNum.BitLength (2 ^ 129536) + 512 <= INT_MAX)
    by (vm_compute; discriminate).
  split; [exact H1 |].
  apply (@RandomOracle_domain_check
           TestEngine.engine test_engine_spec
           TestEngine.hello (2 ^ 129536) (TestEngine.fresh 0) H1).
  vm_compute. discriminate.
Defined.

Lemma GenerateRandLessThan_delegates_to_engine_witness :
  exists r,
    GenerateRandLessThan 7 (TestEngine.fresh 12) =
    (Returned r, after_draw 7 (TestEngine.fresh 12)) /\ 0 <= r < 7.
Proof.
  apply (@GenerateRandLessThan_delegates_to_engine
           TestEngine.engine test_engine_spec 7 (TestEngine.fresh 12)).
  lia.
Defined.

(** C5, as the claim states it, fails at bound 0: the process is not
    stopped by a precondition check with the Context untouched; the call
    to the engine's range sampler is made first, and the abort is the
    CRYPTO_CHECK on the failure it reports. *)
Lemma GenerateRandLessThan_zero_reaches_engine :
  GenerateRandLessThan 0 (TestEngine.fresh 0) <>
  (Aborted CheckFailed, TestEngine.fresh 0) /\
  fst (GenerateRandLessThan 0 (TestEngine.fresh 0)) = Aborted EngineFailed /\
  calls (snd (GenerateRandLessThan 0 (TestEngine.fresh 0))) =
  [Call_BN_rand_range 0 None].
Proof.
  split; [intros H; vm_compute in H; discriminate H |].
  split; reflexivity.
Qed.

Lemma GenerateRandBetween_spec_witness :
  exists r s',
    GenerateRandLessThan (7 - 3) (TestEngine.fresh 12) = (Returned r, s') /\
    GenerateRandBetween 3 7 (TestEngine.fresh 12) = (Returned (3 + r), s') /\
    3 <= 3 + r < 7.
Proof.
  apply (@GenerateRandBetween_spec
           TestEngine.engine test_engine_spec 3 7 (TestEngine.fresh 12)).
  lia.
Defined.

Lemma GenerateRandomBytes_spec_witness :
  exists bs s',
    GenerateRandomBytes 3 (TestEngine.fresh 65) = (Returned bs, s') /\
    Z.of_nat (length bs) = 3 /\ (3 = 0 -> bs = []).
Proof.
  apply (@GenerateRandomBytes_spec
           TestEngine.engine test_engine_spec 3 (TestEngine.fresh 65)).
  lia.
Defined.

Lemma RelativelyPrimeRandomLessThan_spec_witness :
  1 < 6 /\
  match RelativelyPrimeRandomLessThan 10 6 (TestEngine.fresh 0) with
  | (Returned r, s') =>
      0 <= r < 6 /\ Z.gcd r 6 = 1 /\
      exists rejected,
        (length rejected <= 10)%nat /\
        Forall (fun c => 1 < Z.gcd c 6) rejected /\
        calls s' =
        calls (TestEngine.fresh 0) ++
        map (fun c => Call_BN_rand_range 6 (Some c)) (rejected ++ [r])
  | (OutOfFuel, s') =>
      exists rejected,
        length rejected = 11%nat /\
        Forall (fun c => 1 < Z.gcd c 6) rejected /\
        calls s' =
        calls (TestEngine.fresh 0) ++
        map (fun c => Call_BN_rand_range 6 (Some c)) rejected
  | (Aborted _, _) => False
  end.
Proof.
  assert (H1 : 1 < 6) by lia.
  split; [exact H1 |].
  exact (@RelativelyPrimeRandomLessThan_spec
           TestEngine.engine test_engine_spec 10 6 (TestEngine.fresh 0) H1).
Defined.

Lemma digest_deterministic_across_calls_witness :
  let used := snd (Sha512String TestEngine.key10 (TestEngine.fresh 0)) in
  md_input (evp_md_ctx_ used) = TestEngine.key10 /\
  (exists h, fst (Sha256String TestEngine.hello used) = Returned h /\
             length h = 32%nat) /\
  fst (Sha256String TestEngine.hello used) =
  Returned (digest EVP_sha256 TestEngine.hello) /\
  calls (snd (Sha256String TestEngine.hello used)) =
  calls used ++ [Call_EVP_DigestInit_ex EVP_sha256;
                 Call_EVP_DigestUpdate TestEngine.hello;
                 Call_EVP_DigestFinal_ex] /\
  evp_md_ctx_ (snd (Sha256String TestEngine.hello used)) =
  {| md_type := Some EVP_sha256; md_input := TestEngine.hello |}.
Proof.
  intros used.
  pose proof (@digest_deterministic_across_calls
                TestEngine.engine test_engine_spec TestEngine.hello used)
    as [Hlen [_ [_ [_ [[Hval [Hcalls [Hctx _]]] _]]]]].
  split; [reflexivity |].
  split; [exact Hlen | split; [exact Hval | split; [exact Hcalls |]]].
  exact Hctx.
Defined.

Lemma RelativelyPrimeRandomLessThan_one_witness :
  RelativelyPrimeRandomLessThan 3 1 (TestEngine.fresh 2) =
  (Returned 0, after_draw 1 (TestEngine.fresh 2)).
Proof.
  apply (@RelativelyPrimeRandomLessThan_one
           TestEngine.engine test_engine_spec 3 (TestEngine.fresh 2)).
Defined.

(** * Further properties of the methods *)

(** ** Byte strings and numbers *)

Lemma byte_val_byte_of (z : Z) : BigNum.byte_val (BigNum.byte_of z) = z mod 256.
Proof.
  unfold BigNum.byte_val, BigNum.byte_of.
  pose proof (Z.mod_pos_bound z 256 ltac:(lia)) as Hz.
  destruct (Byte.of_N (Z.to_N (z mod 256))) as [b |] eqn:Hb.
  - apply Byte.to_of_N in Hb. rewrite Hb. apply Z2N.id. lia.
  - apply Byte.of_N_None_iff in Hb. lia.
Qed.

Lemma be_bytes_length (len : nat) (n : Z) :
  length (BigNum.be_bytes len n) = len.
Proof.
  revert n. induction len as [| len IH]; intros n; [reflexivity |].
  cbn [BigNum.be_bytes]. rewrite length_app, IH. cbn. lia.
Qed.

Lemma of_bytes_be_bytes (len : nat) (n : Z) :
  BigNum.of_bytes (BigNum.be_bytes len n) = n mod 256 ^ Z.of_nat len.
Proof.
  revert n. induction len as [| len IH]; intros n.
  - cbn. symmetry. apply Z.mod_1_r.
  - cbn [BigNum.be_bytes]. rewrite of_bytes_app, IH.
    cbn [length]. change (256 ^ Z.of_nat 1) with 256.
    unfold BigNum.of_bytes at 1. cbn [fold_left].
    rewrite byte_val_byte_of, Nat2Z.inj_succ, Z.pow_succ_r by lia.
    rewrite (Z.rem_mul_r n 256 (256 ^ Z.of_nat len)) by
        (try apply Z.pow_pos_nonneg; lia).
    lia.
Qed.

Lemma BitLength_bounds (n : Z) :
  0 < n -> 2 ^ (BigNum.BitLength n - 1) <= n < 2 ^ BigNum.BitLength n.
Proof.
  intros Hn. unfold BigNum.BitLength.
  destruct (Z.eqb_spec n 0); [lia |].
  rewrite Z.abs_eq by lia.
  replace (Z.log2 n + 1 - 1) with (Z.log2 n) by lia.
  replace (Z.log2 n + 1) with (Z.succ (Z.log2 n)) by lia.
  apply Z.log2_spec. exact Hn.
Qed.

Lemma pow_256 (k : Z) : 0 <= k -> 256 ^ k = 2 ^ (8 * k).
Proof. intros Hk. rewrite Z.pow_mul_r by lia. reflexivity. Qed.

Lemma ToBytes_length (n : Z) :
  Z.of_nat (length (BigNum.ToBytes n)) = BigNum.NumBytes n.
Proof.
  unfold BigNum.ToBytes. rewrite be_bytes_length.
  apply Z2Nat.id. unfold BigNum.NumBytes.
  pose proof (BitLength_nonneg n). div_lia.
Qed.

Lemma of_bytes_ToBytes (n : Z) :
  0 <= n -> BigNum.of_bytes (BigNum.ToBytes n) = n.
Proof.
  intros Hn.
  pose proof (BitLength_nonneg n) as HB.
  assert (HNB : 0 <= BigNum.NumBytes n)
    by (unfold BigNum.NumBytes; div_lia).
  unfold BigNum.ToBytes.
  rewrite Z.abs_eq, of_bytes_be_bytes, Z2Nat.id by lia.
  apply Z.mod_small. split; [exact Hn |].
  rewrite pow_256 by lia.
  destruct (Z.eq_dec n 0) as [-> | Hnz];
    [apply Z.pow_pos_nonneg; lia |].
  pose proof (BitLength_bounds n ltac:(lia)) as [_ Hlt].
  eapply Z.lt_le_trans; [exact Hlt |].
  apply Z.pow_le_mono_r; [lia |]. unfold BigNum.NumBytes. div_lia.
Qed.

(** X11: decoding the serialisation of a non-negative number gives the
    number back; decoding ignores leading zero bytes; and the
    serialisation is the shortest byte string that decodes to the
    number. *)
Theorem CreateBigNum_ToBytes_round_trip (n : Z) :
  0 <= n ->
  CreateBigNum_bytes (BigNum.ToBytes n) = n /\
  (forall bs, CreateBigNum_bytes (x00 :: bs) = CreateBigNum_bytes bs) /\
  (forall bs, CreateBigNum_bytes bs = n ->
              (length (BigNum.ToBytes n) <= length bs)%nat).
Proof.
  intros Hn.
  pose proof (BitLength_nonneg n) as HB.
  assert (HNB : 0 <= BigNum.NumBytes n)
    by (unfold BigNum.NumBytes; div_lia).
  split; [| split].
  - apply of_bytes_ToBytes. exact Hn.
  - intros bs. unfold CreateBigNum_bytes.
    change (x00 :: bs) with ([x00] ++ bs). rewrite of_bytes_app.
    reflexivity.
  - intros bs Hbs. unfold CreateBigNum_bytes in Hbs.
    pose proof (of_bytes_bound bs) as [_ Hub]. rewrite Hbs in Hub.
    apply Nat2Z.inj_le. rewrite ToBytes_length.
    destruct (Z.eq_dec n 0) as [-> | Hnz]; [cbn; lia |].
    pose proof (BitLength_bounds n ltac:(lia)) as [Hlb _].
    destruct (Z_le_gt_dec (BigNum.NumBytes n) (Z.of_nat (length bs)))
      as [Hok | Hbad]; [exact Hok | exfalso].
    assert (256 ^ Z.of_nat (length bs) <= 2 ^ (BigNum.BitLength n - 1)).
    { rewrite pow_256 by lia. apply Z.pow_le_mono_r; [lia |].
      unfold BigNum.NumBytes in Hbad. div_lia. }
    lia.
Qed.

(** ** More on the random oracle *)

Lemma counter_is_one_byte (i : Z) :
  1 <= i <= 255 -> BigNum.ToBytes (CreateBigNum i) = [BigNum.byte_of i].
Proof.
  intros Hi. unfold CreateBigNum, BigNum.of_uint64.
  rewrite Z.mod_small by lia.
  pose proof (BitLength_bounds i ltac:(lia)) as [Hlo Hhi].
  pose proof (BitLength_nonneg i) as HB.
  assert (HB8 : 1 <= BigNum.BitLength i <= 8).
  { split.
    - destruct (Z_lt_le_dec (BigNum.BitLength i) 1); [| lia].
      replace (BigNum.BitLength i) with 0 in Hhi by lia. cbn in Hhi. lia.
    - destruct (Z_lt_le_dec 8 (BigNum.BitLength i)); [| lia].
      assert (2 ^ 8 <= 2 ^ (BigNum.BitLength i - 1))
        by (apply Z.pow_le_mono_r; lia).
      change (2 ^ 8) with 256 in *. lia. }
  unfold BigNum.ToBytes.
  replace (BigNum.NumBytes i) with 1 by (unfold BigNum.NumBytes; div_lia).
  rewrite Z.abs_eq by lia. reflexivity.
Qed.

(** X5: below the cap of 255 iterations the counter is encoded in one
    byte, so the message hashed for a block is that byte followed by x,
    and two blocks hash the same message only if they have the same
    counter and the same x. *)
Theorem oracle_messages_are_separated (x x' : bytes) (i j : Z) :
  1 <= i <= 254 -> 1 <= j <= 254 ->
  length (oracle_message x i) = S (length x) /\
  (oracle_message x i = oracle_message x' j -> i = j /\ x = x').
Proof.
  intros Hi Hj. unfold oracle_message.
  rewrite !counter_is_one_byte by lia. cbn [app length].
  split; [reflexivity |].
  intros Heq. injection Heq as Hb Hx. split; [| exact Hx].
  apply (f_equal BigNum.byte_val) in Hb.
  rewrite !byte_val_byte_of, !Z.mod_small in Hb by lia. exact Hb.
Qed.

Section MoreRandomOracle.

Context {E : Engine}.

(** The loop always runs to its end, whatever the state it starts from,
    and changes neither the keyed-hash state nor the generator. *)
Lemma RandomOracle_loop_total (n : nat) (x : bytes) :
  forall (i acc : Z),
  exists v, forall s,
    exists s', RandomOracle_loop n x i acc s = (Returned v, s') /\
               hmac_ctx_ s' = hmac_ctx_ s /\ rand_ s' = rand_ s.
Proof.
  induction n as [| n IH]; intros i acc.
  - exists acc. intros s. exists s. repeat split.
  - cbn [RandomOracle_loop].
    destruct (IH (int_add i 1)
                 (BigNum.Lshift acc 512 +
                  CreateBigNum_bytes
                    (digest EVP_sha512
                            (BigNum.ToBytes (CreateBigNum i) ++ x))))
      as [v Hv].
    exists v. intros s.
    rewrite (bind_Returned _ _ _ _ _ (Sha512String_run _ s)).
    destruct (Hv (after_digest EVP_sha512
                    (BigNum.ToBytes (CreateBigNum i) ++ x) s))
      as [s' [Hrun [Hh Hr]]].
    exists s'. split; [exact Hrun | split; assumption].
Qed.

(** X1: what RandomOracle yields (a value, or an abort and its kind) is
    the same from every state of the Context: nothing a previous digest,
    keyed hash or draw left behind influences it.  It changes neither the
    keyed-hash state nor the random generator. *)
Theorem RandomOracle_ignores_prior_state
        (x : bytes) (max_value : Z) (s1 s2 : State) :
  fst (RandomOracle x max_value s1) = fst (RandomOracle x max_value s2) /\
  hmac_ctx_ (snd (RandomOracle x max_value s1)) = hmac_ctx_ s1 /\
  rand_ (snd (RandomOracle x max_value s1)) = rand_ s1.
Proof.
  unfold RandomOracle.
  set (L := int_add (BigNum.BitLength max_value) 512).
  set (k := ceil_float_div (float_of_int L) 512).
  destruct (k <? 255).
  - rewrite !CHECK_true.
    destruct (RandomOracle_loop_total (Z.to_nat k) x 1 (CreateBigNum 0))
      as [v Hv].
    destruct (Hv s1) as [s1' [Hrun1 [Hh1 Hr1]]].
    destruct (Hv s2) as [s2' [Hrun2 _]].
    rewrite (bind_Returned _ _ _ _ _ Hrun1), (bind_Returned _ _ _ _ _ Hrun2).
    unfold checked.
    destruct (BigNum.Mod (BigNum.Rshift v (int_sub (int_mul k 512) L))
                         max_value); cbn; auto.
  - rewrite !CHECK_false. cbn. auto.
Qed.

End MoreRandomOracle.

Lemma flat_map_length_3 {A B} (f : A -> list B) (l : list A) :
  (forall a, length (f a) = 3%nat) ->
  length (flat_map f l) = (3 * length l)%nat.
Proof.
  intros Hf. induction l as [| a l IH]; [reflexivity |].
  cbn [flat_map]. rewrite length_app, Hf, IH. cbn [length]. lia.
Qed.

Lemma concat_blocks_length {A} (f : A -> bytes) (l : list A) (w : nat) :
  (forall a, length (f a) = w) ->
  length (concat (map f l)) = (w * length l)%nat.
Proof.
  intros Hf. induction l as [| a l IH]; [cbn; lia |].
  cbn [map concat]. rewrite length_app, Hf, IH. cbn [length]. lia.
Qed.

Section OracleFootprint.

Context {E : Engine}.

(** The engine calls of the loop: one digest per counter, in order. *)
Lemma RandomOracle_loop_calls (n : nat) (x : bytes) :
  forall (i : nat) (acc : Z) (s : State),
    (i + n <= 255)%nat ->
    exists v s',
      RandomOracle_loop n x (Z.of_nat i) acc s = (Returned v, s') /\
      calls s' =
      calls s ++
      flat_map (fun j => digest_calls EVP_sha512
                           (oracle_message x (Z.of_nat j))) (seq i n).
Proof.
  induction n as [| n IH]; intros i acc s Hi.
  - exists acc, s. cbn. rewrite app_nil_r. split; reflexivity.
  - destruct (IH (S i)
                 (BigNum.Lshift acc 512 +
                  CreateBigNum_bytes
                    (digest EVP_sha512
                            (BigNum.ToBytes (CreateBigNum (Z.of_nat i)) ++ x)))
                 (after_digest EVP_sha512
                    (BigNum.ToBytes (CreateBigNum (Z.of_nat i)) ++ x) s)
                 ltac:(lia)) as [v [s' [Hrun Hcalls]]].
    exists v, s'. cbn [RandomOracle_loop seq flat_map].
    rewrite (bind_Returned
               _ _ _ _ _
               (Sha512String_run
                  (BigNum.ToBytes (CreateBigNum (Z.of_nat i)) ++ x) s)).
    replace (int_add (Z.of_nat i) 1) with (Z.of_nat (S i))
      by (unfold int_add; rewrite wrap_int_id; unfold INT_MAX; lia).
    split; [exact Hrun |].
    rewrite Hcalls, app_assoc. reflexivity.
Qed.

(** X2: for a domain that passes the check, RandomOracle makes exactly
    3 * k engine calls, k = ceil((bitlength(max_value) + 512) / 512): an
    init / update / final triple for each counter 1..k in counter order,
    the update carrying the counter byte followed by x.  This holds
    whether or not the final reduction succeeds. *)
Theorem RandomOracle_engine_calls (x : bytes) (max_value : Z) (s : State) :
  BigNum.BitLength max_value + 512 <= 130048 ->
  let k := Z.to_nat ((BigNum.BitLength max_value + 512 + 511) / 512) in
  calls (snd (RandomOracle x max_value s)) =
  calls s ++
  flat_map (fun j => digest_calls EVP_sha512 (oracle_message x (Z.of_nat j)))
           (seq 1 k) /\
  length (calls (snd (RandomOracle x max_value s))) =
  (length (calls s) + 3 * k)%nat.
Proof.
  intros HL k.
  pose proof (BitLength_nonneg max_value) as HB.
  assert (Hcalls :
            calls (snd (RandomOracle x max_value s)) =
            calls s ++
            flat_map (fun j => digest_calls EVP_sha512
                                 (oracle_message x (Z.of_nat j))) (seq 1 k)).
  { unfold RandomOracle. rewrite iter_count_small by lia. fold k.
    assert (Hk : (BigNum.BitLength max_value + 512 + 511) / 512 <= 254)
      by div_lia.
    destruct (Z.ltb_spec
                ((BigNum.BitLength max_value + 512 + 511) / 512) 255);
      [| lia].
    rewrite CHECK_true.
    destruct (RandomOracle_loop_calls k x 1 (CreateBigNum 0) s
                ltac:(unfold k; lia)) as [v [s' [Hrun Hc]]].
    change 1 with (Z.of_nat 1) at 1.
    rewrite (bind_Returned _ _ _ _ _ Hrun). unfold checked.
    destruct (BigNum.Mod _ max_value); exact Hc. }
  split; [exact Hcalls |].
  rewrite Hcalls, length_app, flat_map_length_3, length_seq by reflexivity.
  reflexivity.
Qed.

(** X4: a zero max_value is not caught by the check of RandomOracle.  One
    block (counter 1) is hashed, and the process is stopped only by the
    final reduction modulo zero. *)
Theorem RandomOracle_zero_modulus (x : bytes) (s : State) :
  RandomOracle x 0 s =
  (Aborted EngineFailed, after_digest EVP_sha512 (oracle_message x 1) s).
Proof.
  unfold RandomOracle.
  change (ceil_float_div (float_of_int (int_add (BigNum.BitLength 0) 512)) 512)
    with 1.
  rewrite CHECK_true. change (Z.to_nat 1) with 1%nat.
  cbn [RandomOracle_loop]. unfold bind at 1 2.
  rewrite Sha512String_run. reflexivity.
Qed.

Context {ES : EngineSpec E}.

(** X3: the value RandomOracle reduces modulo max_value is the loop's
    k * 512-bit concatenation shifted right by the excess k * 512 - L
    bits, L = bitlength(max_value) + 512: the loop's value is below
    2^(512 k), the shifted value is its top part and is below 2^L, and
    2^L is at least 2^512 times max_value. *)
Theorem RandomOracle_security_margin (x : bytes) (max_value : Z) (s : State) :
  0 < max_value ->
  BigNum.BitLength max_value + 512 <= 130048 ->
  let L := BigNum.BitLength max_value + 512 in
  let k := (L + 511) / 512 in
  let excess_bit_count := k * 512 - L in
  exists hash_output s',
    RandomOracle_loop (Z.to_nat k) x 1 (CreateBigNum 0) s =
    (Returned hash_output, s') /\
    0 <= hash_output < 2 ^ (512 * k) /\
    0 <= excess_bit_count < 512 /\
    hash_output =
    BigNum.Rshift hash_output excess_bit_count * 2 ^ excess_bit_count +
    hash_output mod 2 ^ excess_bit_count /\
    0 <= BigNum.Rshift hash_output excess_bit_count < 2 ^ L /\
    max_value * 2 ^ 512 <= 2 ^ L /\
    fst (RandomOracle x max_value s) =
    Returned (BigNum.Rshift hash_output excess_bit_count mod max_value).
Proof.
  intros Hmax HL L k excess_bit_count.
  pose proof (BitLength_nonneg max_value) as HB.
  pose proof (BitLength_bounds max_value Hmax) as [_ Hlt].
  assert (Hk : 1 <= k <= 254) by (unfold k, L; div_lia).
  assert (Hex : 0 <= excess_bit_count <= 511)
    by (unfold excess_bit_count, k, L; div_lia).
  destruct (RandomOracle_loop_run (Z.to_nat k) x 1 [] s ltac:(lia))
    as [s' Hs'].
  cbn [app] in Hs'.
  set (blocks := concat (map (fun j => digest EVP_sha512
                                         (BigNum.ToBytes (Z.of_nat j) ++ x))
                             (seq 1 (Z.to_nat k)))) in *.
  assert (Hbound : 0 <= BigNum.of_bytes blocks < 2 ^ (512 * k)).
  { pose proof (of_bytes_bound blocks) as [Hlo Hhi].
    unfold blocks in Hhi.
    rewrite (concat_blocks_length _ _ 64%nat) in Hhi
      by (intros a; apply (digest_length EVP_sha512)).
    rewrite length_seq, pow_256 in Hhi by lia. fold blocks in Hhi.
    replace (8 * Z.of_nat (64 * Z.to_nat k)) with (512 * k) in Hhi by lia.
    lia. }
  assert (Hp : 0 < 2 ^ excess_bit_count) by (apply Z.pow_pos_nonneg; lia).
  exists (BigNum.of_bytes blocks), s'.
  split; [exact Hs' | split; [exact Hbound | split; [lia |]]].
  unfold BigNum.Rshift. rewrite Z.shiftr_div_pow2 by lia.
  split; [| split; [| split]].
  - pose proof (Z.div_mod (BigNum.of_bytes blocks) (2 ^ excess_bit_count)
                  ltac:(lia)).
    lia.
  - split; [apply Z.div_pos; lia |].
    apply Z.div_lt_upper_bound; [exact Hp |].
    rewrite <- Z.pow_add_r by lia.
    replace (excess_bit_count + L) with (512 * k)
      by (unfold excess_bit_count; lia).
    apply Hbound.
  - unfold L. rewrite Z.pow_add_r by lia.
    apply Z.mul_le_mono_nonneg_r; [apply Z.pow_nonneg; lia | lia].
  - unfold RandomOracle. rewrite iter_count_small by lia. fold L k.
    destruct (Z.ltb_spec k 255); [| lia].
    rewrite CHECK_true.
    change 1 with (Z.of_nat 1) at 1.
    rewrite (bind_Returned _ _ _ _ _ Hs').
    replace (int_sub (int_mul k 512) (int_add (BigNum.BitLength max_value) 512))
      with excess_bit_count.
    + unfold BigNum.Mod, BigNum.Rshift, checked.
      destruct (Z.ltb_spec 0 max_value); [| lia].
      rewrite Z.shiftr_div_pow2 by lia. reflexivity.
    + unfold int_sub, int_mul, int_add, excess_bit_count. fold L.
      rewrite (wrap_int_id (k * 512)) by (unfold INT_MAX; lia).
      rewrite (wrap_int_id L) by (unfold INT_MAX; lia).
      rewrite wrap_int_id by (unfold INT_MAX; lia). reflexivity.
Qed.

End OracleFootprint.

(** ** More on the pseudorandom function *)

Section MorePRF.

Context {E : Engine}.

(** One round, whatever the arguments. *)
Lemma PRF_any_round (fuel : nat) (key data : bytes) (max_value : Z) (s : State) :
  PRF fuel key data max_value s =
  if (80 <=? wrap_size_t (Z.of_nat (length key) * 8)) &&
     (BigNum.BitLength max_value <=? 512)
  then
    if spec_prf_candidate key data max_value <? max_value
    then (Returned (spec_prf_candidate key data max_value),
          after_hmac key data s)
    else
      match fuel with
      | O => (OutOfFuel, after_hmac key data s)
      | S fuel' =>
          PRF fuel' key (BigNum.ToBytes (spec_prf_hash key data)) max_value
              (after_hmac key data s)
      end
  else (Aborted CheckFailed, s).
Proof.
  rewrite PRF_unfold.
  destruct (80 <=? wrap_size_t (Z.of_nat (length key) * 8));
    [| apply CHECK_false].
  rewrite CHECK_true.
  destruct (BigNum.BitLength max_value <=? 512); [| apply CHECK_false].
  rewrite CHECK_true. cbn [andb].
  unfold bind, HMAC_Init_ex, HMAC_Update, HMAC_Final, CRYPTO_CHECK, ret,
    out_of_fuel, log, set_hmac_ctx.
  cbn. rewrite firstn_md_len, <- !app_assoc. cbn [app].
  rewrite GetLastNBits_mod by apply BitLength_nonneg.
  fold (spec_prf_hash key data). fold (spec_prf_candidate key data max_value).
  fold (after_hmac key data s).
  destruct (spec_prf_candidate key data max_value <? max_value);
    [reflexivity | destruct fuel; reflexivity].
Qed.

Lemma PRF_checked_never_aborts (key : bytes) (max_value : Z) :
  (80 <=? wrap_size_t (Z.of_nat (length key) * 8)) &&
  (BigNum.BitLength max_value <=? 512) = true ->
  forall fuel data s why,
    fst (PRF fuel key data max_value s) <> Aborted why.
Proof.
  intros Hchk.
  induction fuel as [| fuel IH]; intros data s why;
    rewrite (PRF_any_round _ key data max_value s), Hchk;
    destruct (spec_prf_candidate key data max_value <? max_value);
    try discriminate.
  apply IH.
Qed.

(** X6: what PRF yields is the same from every state of the Context: each
    round re-keys and re-initialises the keyed-hash state, so nothing an
    earlier call left behind influences the result.  PRF changes neither
    the digest state nor the random generator. *)
Theorem PRF_ignores_prior_state
        (fuel : nat) (key data : bytes) (max_value : Z) (s1 s2 : State) :
  fst (PRF fuel key data max_value s1) = fst (PRF fuel key data max_value s2) /\
  evp_md_ctx_ (snd (PRF fuel key data max_value s1)) = evp_md_ctx_ s1 /\
  rand_ (snd (PRF fuel key data max_value s1)) = rand_ s1.
Proof.
  revert data s1 s2.
  induction fuel as [| fuel IH]; intros data s1 s2;
    rewrite (PRF_any_round _ key data max_value s1),
            (PRF_any_round _ key data max_value s2);
    destruct ((80 <=? wrap_size_t (Z.of_nat (length key) * 8)) &&
              (BigNum.BitLength max_value <=? 512));
    try (cbn; auto; fail);
    destruct (spec_prf_candidate key data max_value <? max_value);
    try (cbn; auto; fail).
  destruct (IH (BigNum.ToBytes (spec_prf_hash key data))
               (after_hmac key data s1) (after_hmac key data s2))
    as [Hv [Hd Hr]].
  split; [exact Hv | split; [rewrite Hd | rewrite Hr]; reflexivity].
Qed.

Lemma prf_chain_cons (key data : bytes) (rounds : nat) :
  map (spec_prf_data key data) (seq 0 (S rounds)) =
  data :: map (spec_prf_data key (BigNum.ToBytes (spec_prf_hash key data)))
              (seq 0 rounds).
Proof.
  cbn [seq map spec_prf_data]. f_equal.
  rewrite <- seq_shift, map_map. apply map_ext.
  intros j. symmetry. apply prf_data_next.
Qed.

(** X7: the engine calls of PRF are keyed-hash calls only: one
    init / update / final triple per round, all under the same key, the
    first on data and each later one on the serialised hash of the round
    before.  There are at most fuel + 1 rounds, and none at all exactly
    when a precondition check stops the call. *)
Theorem PRF_engine_calls
        (fuel : nat) (key data : bytes) (max_value : Z) (s : State) :
  exists rounds,
    (rounds <= S fuel)%nat /\
    calls (snd (PRF fuel key data max_value s)) =
    calls s ++
    flat_map (hmac_calls key) (map (spec_prf_data key data) (seq 0 rounds)) /\
    (rounds = 0%nat <->
     fst (PRF fuel key data max_value s) = Aborted CheckFailed).
Proof.
  destruct ((80 <=? wrap_size_t (Z.of_nat (length key) * 8)) &&
            (BigNum.BitLength max_value <=? 512)) eqn:Hchk.
  - pose proof (PRF_checked_never_aborts key max_value Hchk) as Hnever.
    revert data s.
    induction fuel as [| fuel IH]; intros data s.
    + exists 1%nat. rewrite (PRF_any_round _ key data max_value s), Hchk.
      split; [lia |].
      destruct (spec_prf_candidate key data max_value <? max_value);
        (split; [reflexivity | split; discriminate]).
    + pose proof (Hnever (S fuel) data s CheckFailed) as Hno.
      rewrite (PRF_any_round _ key data max_value s), Hchk in *.
      destruct (spec_prf_candidate key data max_value <? max_value).
      * exists 1%nat.
        split; [lia | split; [reflexivity | split; discriminate]].
      * destruct (IH (BigNum.ToBytes (spec_prf_hash key data))
                     (after_hmac key data s))
          as [rounds [Hle [Hcalls _]]].
        exists (S rounds). split; [lia | split].
        -- rewrite Hcalls, prf_chain_cons. cbn [flat_map after_hmac calls].
           rewrite <- app_assoc. reflexivity.
        -- split; [discriminate | intros Hab; contradiction].
  - exists 0%nat. rewrite (PRF_any_round _ key data max_value s), Hchk.
    cbn. rewrite app_nil_r.
    split; [lia | split; [reflexivity | split; reflexivity]].
Qed.

(** X8: with max_value = 0 (or below) no candidate is ever accepted: PRF
    passes its checks and then calls itself without end, whatever the key
    and data.  In the model every recursion depth is exhausted. *)
Theorem PRF_nonpositive_modulus_never_returns
        (fuel : nat) (key data : bytes) (max_value : Z) (s : State) :
  (10 <= length key)%nat ->
  Z.of_nat (length key) * 8 <= SIZE_MAX ->
  BigNum.BitLength max_value <= 512 ->
  max_value <= 0 ->
  fst (PRF fuel key data max_value s) = OutOfFuel /\
  length (calls (snd (PRF fuel key data max_value s))) =
  (length (calls s) + 3 * S fuel)%nat.
Proof.
  intros Hkey Hsize Hbits Hmax. revert data s.
  induction fuel as [| fuel IH]; intros data s;
    rewrite (PRF_round _ key data max_value s) by assumption;
    pose proof (prf_candidate_nonneg key data max_value);
    (destruct (Z.ltb_spec (spec_prf_candidate key data max_value) max_value);
     [lia |]).
  - split; [reflexivity |]. cbn [snd after_hmac calls].
    rewrite length_app. reflexivity.
  - destruct (IH (BigNum.ToBytes (spec_prf_hash key data))
                 (after_hmac key data s)) as [Hout Hlen].
    split; [exact Hout |]. rewrite Hlen. cbn [after_hmac calls].
    rewrite length_app. cbn [length]. lia.
Qed.

(** X9: for max_value > 0 the candidate, the low bitlength(max_value) bits
    of the hash, is below 2 * max_value: a rejected candidate lies in
    [max_value, 2 * max_value), and the rejected values are never more
    than the accepted ones (equally many only for a power of two). *)
Theorem PRF_candidate_below_twice_max (key data : bytes) (max_value : Z) :
  0 < max_value ->
  let hash_bn := BigNum.of_bytes (hmac EVP_sha512 key data) in
  let hash_bn_reduced :=
    BigNum.GetLastNBits hash_bn (BigNum.BitLength max_value) in
  0 <= hash_bn_reduced < 2 * max_value /\
  (max_value = 2 ^ (BigNum.BitLength max_value - 1) \/
   2 ^ BigNum.BitLength max_value - max_value < max_value).
Proof.
  intros Hmax hash_bn hash_bn_reduced.
  pose proof (BitLength_nonneg max_value) as HB.
  pose proof (BitLength_bounds max_value Hmax) as [Hlo Hhi].
  assert (HB1 : 1 <= BigNum.BitLength max_value).
  { destruct (Z_lt_le_dec (BigNum.BitLength max_value) 1); [| lia].
    replace (BigNum.BitLength max_value) with 0 in Hhi by lia.
    cbn in Hhi. lia. }
  assert (Hpow : 2 ^ BigNum.BitLength max_value =
                 2 * 2 ^ (BigNum.BitLength max_value - 1)).
  { rewrite <- Z.pow_succ_r by lia. f_equal. lia. }
  split.
  - unfold hash_bn_reduced. rewrite GetLastNBits_mod by lia.
    pose proof (Z.mod_pos_bound hash_bn (2 ^ BigNum.BitLength max_value)
                  ltac:(lia)).
    lia.
  - lia.
Qed.

Context {ES : EngineSpec E}.

(** X10: the data PRF passes to its recursive call is the serialised hash
    value, not the raw 64 hash bytes: it is at most 64 bytes long, decodes
    to the hash value, and is strictly shorter than the hash whenever the
    hash begins with a zero byte. *)
Theorem PRF_next_round_data (key data : bytes) :
  let hash := hmac EVP_sha512 key data in
  let next := BigNum.ToBytes (BigNum.of_bytes hash) in
  (length next <= 64)%nat /\
  CreateBigNum_bytes next = BigNum.of_bytes hash /\
  (forall rest, hash = x00 :: rest -> (length next < length hash)%nat).
Proof.
  intros hash next.
  pose proof (hmac_size EVP_sha512 key data) as Hsize.
  change (hmac EVP_sha512 key data) with hash in Hsize. cbn in Hsize.
  pose proof (of_bytes_bound hash) as [Hlo Hhi].
  pose proof (BitLength_nonneg (BigNum.of_bytes hash)) as HB.
  assert (Hlen : forall m, 0 <= m -> BigNum.of_bytes hash < 2 ^ (8 * m) ->
                           Z.of_nat (length next) <= m).
  { intros m Hm Hlt. unfold next. rewrite ToBytes_length.
    destruct (Z.eq_dec (BigNum.of_bytes hash) 0) as [-> | Hnz];
      [cbn; lia |].
    pose proof (BitLength_bounds (BigNum.of_bytes hash) ltac:(lia))
      as [Hb _].
    assert (BigNum.BitLength (BigNum.of_bytes hash) - 1 < 8 * m).
    { apply (Z.pow_lt_mono_r_iff 2); lia. }
    unfold BigNum.NumBytes. div_lia. }
  split; [| split].
  - apply Nat2Z.inj_le. apply Hlen; [lia |].
    rewrite Hsize, pow_256 in Hhi by lia. exact Hhi.
  - apply of_bytes_ToBytes. exact Hlo.
  - intros rest Hrest. apply Nat2Z.inj_lt. rewrite Hsize.
    assert (Hr : Z.of_nat (length rest) = 63).
    { rewrite Hrest in Hsize. cbn [length] in Hsize. lia. }
    assert (Z.of_nat (length next) <= 63); [| lia].
    apply Hlen; [lia |].
    rewrite Hrest. change (x00 :: rest) with ([x00] ++ rest).
    rewrite of_bytes_app. change (BigNum.of_bytes [x00]) with 0.
    pose proof (of_bytes_bound rest) as [_ Hrb].
    rewrite Hr, pow_256 in Hrb by lia. lia.
Qed.

End MorePRF.

(** ** More on the randomness source *)

Section MoreRandomness.

Context {E : Engine}.

(** X12: from 0, RandomBetween is RandomLessThan with a check in front:
    for n > 0 the two make the same engine call and return the same value
    in the same state; for n <= 0 RandomBetween(0, n) stops on its CHECK
    before the engine is reached. *)
Theorem GenerateRandBetween_from_zero (n : Z) (s : State) :
  (0 < n -> GenerateRandBetween 0 n s = GenerateRandLessThan n s) /\
  (n <= 0 -> GenerateRandBetween 0 n s = (Aborted CheckFailed, s)).
Proof.
  unfold GenerateRandBetween. split; intros Hn.
  - destruct (Z.ltb_spec 0 n); [| lia].
    rewrite CHECK_true, Z.sub_0_r. unfold bind, ret.
    destruct (GenerateRandLessThan n s) as [[r | why |] s'];
      [rewrite Z.add_0_r |  |]; reflexivity.
  - destruct (Z.ltb_spec 0 n); [lia | apply CHECK_false].
Qed.

(** X13: RandomBetween depends on its bounds only through their
    difference: moving both bounds by c asks the engine for the same
    range, ends in the same state, and moves the returned value by c. *)
Theorem GenerateRandBetween_shift (start end_ c : Z) (s : State) :
  GenerateRandBetween (start + c) (end_ + c) s =
  match GenerateRandBetween start end_ s with
  | (Returned v, s') => (Returned (v + c), s')
  | other => other
  end.
Proof.
  unfold GenerateRandBetween.
  replace (start + c <? end_ + c) with (start <? end_)
    by (destruct (Z.ltb_spec start end_);
        destruct (Z.ltb_spec (start + c) (end_ + c)); lia || reflexivity).
  destruct (start <? end_); [| reflexivity].
  rewrite !CHECK_true.
  replace (end_ + c - (start + c)) with (end_ - start) by lia.
  unfold bind, ret.
  destruct (GenerateRandLessThan (end_ - start) s) as [[r | why |] s'];
    [rewrite Z.add_assoc |  |]; reflexivity.
Qed.

(** X14: a failure reported by the engine's range sampler is fatal in
    every method that draws from it: RandomLessThan, RandomBetween (with
    start < end) and RelativelyPrimeRandomLessThan all abort right after
    that one call, and none of them retries. *)
Theorem sampler_failure_is_fatal (range : Z) (s : State) :
  fst (rand_range (rand_ s) range) = None ->
  GenerateRandLessThan range s = (Aborted EngineFailed, after_draw range s) /\
  (forall start end_,
      start < end_ -> end_ - start = range ->
      GenerateRandBetween start end_ s =
      (Aborted EngineFailed, after_draw range s)) /\
  (forall fuel,
      RelativelyPrimeRandomLessThan fuel range s =
      (Aborted EngineFailed, after_draw range s)) /\
  calls (after_draw range s) = calls s ++ [Call_BN_rand_range range None].
Proof.
  intros Hfail.
  assert (Hrun : GenerateRandLessThan range s =
                 (Aborted EngineFailed, after_draw range s))
    by (rewrite GenerateRandLessThan_run, Hfail; reflexivity).
  split; [exact Hrun | split; [| split]].
  - intros start end_ Hlt Hrange. unfold GenerateRandBetween.
    destruct (Z.ltb_spec start end_); [| lia].
    rewrite CHECK_true, Hrange. unfold bind. rewrite Hrun. reflexivity.
  - intros fuel. unfold RelativelyPrimeRandomLessThan, bind.
    rewrite Hrun. reflexivity.
  - rewrite calls_after_draw, Hfail. reflexivity.
Qed.

(** X17: the loop of RelativelyPrimeRandomLessThan has no bound of its
    own.  If every sample the engine gives for n shares a factor with n,
    the method never returns however many times the loop body runs: after
    [fuel] iterations it has made fuel + 1 draws and is still looping. *)
Theorem RelativelyPrimeRandomLessThan_never_gives_up
        (fuel : nat) (n : Z) (s : State) :
  (forall g, exists c, fst (rand_range g n) = Some c /\ 1 < Z.gcd c n) ->
  fst (RelativelyPrimeRandomLessThan fuel n s) = OutOfFuel /\
  length (calls (snd (RelativelyPrimeRandomLessThan fuel n s))) =
  (length (calls s) + S fuel)%nat.
Proof.
  intros Hstuck.
  assert (Hloop : forall fuel c s,
             1 < Z.gcd c n ->
             fst (RelativelyPrime_loop fuel n c s) = OutOfFuel /\
             length (calls (snd (RelativelyPrime_loop fuel n c s))) =
             (length (calls s) + fuel)%nat).
  { clear fuel s. induction fuel as [| fuel IH]; intros c s Hc;
      rewrite RelativelyPrime_loop_unfold;
      change One with 1; unfold BigNum.Gcd;
      (destruct (Z.ltb_spec 1 (Z.gcd c n)); [| lia]).
    - split; [reflexivity | cbn; lia].
    - destruct (Hstuck (rand_ s)) as [c' [Hc' Hgcd]].
      unfold bind. rewrite GenerateRandLessThan_run, Hc'.
      destruct (IH c' (after_draw n s) Hgcd) as [Hout Hlen].
      split; [exact Hout |].
      rewrite Hlen, calls_after_draw, length_app. cbn [length]. lia. }
  destruct (Hstuck (rand_ s)) as [c [Hc Hgcd]].
  unfold RelativelyPrimeRandomLessThan, bind.
  rewrite GenerateRandLessThan_run, Hc.
  destruct (Hloop fuel c (after_draw n s) Hgcd) as [Hout Hlen].
  split; [exact Hout |].
  rewrite Hlen, calls_after_draw, length_app. cbn [length]. lia.
Qed.

Lemma GenerateRandLessThan_frame (max_value : Z) (s : State) :
  evp_md_ctx_ (snd (GenerateRandLessThan max_value s)) = evp_md_ctx_ s /\
  hmac_ctx_ (snd (GenerateRandLessThan max_value s)) = hmac_ctx_ s.
Proof.
  rewrite GenerateRandLessThan_run.
  destruct (fst (rand_range (rand_ s) max_value)); split; reflexivity.
Qed.

Lemma RelativelyPrime_loop_frame (fuel : nat) (num : Z) :
  forall rand_num s,
    evp_md_ctx_ (snd (RelativelyPrime_loop fuel num rand_num s)) =
    evp_md_ctx_ s /\
    hmac_ctx_ (snd (RelativelyPrime_loop fuel num rand_num s)) = hmac_ctx_ s.
Proof.
  induction fuel as [| fuel IH]; intros rand_num s;
    rewrite RelativelyPrime_loop_unfold;
    destruct (One <? BigNum.Gcd rand_num num);
    try (split; reflexivity).
  unfold bind.
  pose proof (GenerateRandLessThan_frame num s) as [Hd Hh].
  destruct (GenerateRandLessThan num s) as [[r | why |] s'];
    cbn [snd] in *; try (split; assumption).
  destruct (IH r s') as [Hd' Hh'].
  split; [rewrite Hd', Hd | rewrite Hh', Hh]; reflexivity.
Qed.

(** X18: no sampling method touches the hashing state: after
    RandomLessThan, RandomBetween, RandomBytes or
    RelativelyPrimeRandomLessThan, however it ends, the digest state and
    the keyed-hash state of the Context are what they were. *)
Theorem sampling_leaves_hash_state (s : State) :
  (forall max_value,
      evp_md_ctx_ (snd (GenerateRandLessThan max_value s)) = evp_md_ctx_ s /\
      hmac_ctx_ (snd (GenerateRandLessThan max_value s)) = hmac_ctx_ s) /\
  (forall start end_,
      evp_md_ctx_ (snd (GenerateRandBetween start end_ s)) = evp_md_ctx_ s /\
      hmac_ctx_ (snd (GenerateRandBetween start end_ s)) = hmac_ctx_ s) /\
  (forall num_bytes,
      evp_md_ctx_ (snd (GenerateRandomBytes num_bytes s)) = evp_md_ctx_ s /\
      hmac_ctx_ (snd (GenerateRandomBytes num_bytes s)) = hmac_ctx_ s) /\
  (forall fuel num,
      evp_md_ctx_ (snd (RelativelyPrimeRandomLessThan fuel num s)) =
      evp_md_ctx_ s /\
      hmac_ctx_ (snd (RelativelyPrimeRandomLessThan fuel num s)) =
      hmac_ctx_ s).
Proof.
  split; [| split; [| split]].
  - intros max_value. apply GenerateRandLessThan_frame.
  - intros start end_. unfold GenerateRandBetween.
    destruct (start <? end_); [| split; reflexivity].
    rewrite CHECK_true. unfold bind, ret.
    pose proof (GenerateRandLessThan_frame (end_ - start) s) as H.
    destruct (GenerateRandLessThan (end_ - start) s) as [[r | why |] s'];
      exact H.
  - intros num_bytes. unfold GenerateRandomBytes.
    destruct (0 <=? num_bytes); [| split; reflexivity].
    rewrite CHECK_true. unfold bind, RAND_bytes.
    destruct (rand_bytes (rand_ s) num_bytes) as [[bs |] g];
      split; reflexivity.
  - intros fuel num. unfold RelativelyPrimeRandomLessThan, bind.
    pose proof (GenerateRandLessThan_frame num s) as [Hd Hh].
    destruct (GenerateRandLessThan num s) as [[r | why |] s'];
      cbn [snd] in *; try (split; assumption).
    destruct (RelativelyPrime_loop_frame fuel num r s') as [Hd' Hh'].
    split; [rewrite Hd', Hd | rewrite Hh', Hh]; reflexivity.
Qed.

(** X19: for n >= 0 RandomBytes makes exactly one engine call, for n
    bytes; it aborts if and only if that call reports failure, and what
    it returns is never longer than n bytes: the first n of the bytes the
    engine wrote. *)
Theorem GenerateRandomBytes_one_call (num_bytes : Z) (s : State) :
  0 <= num_bytes ->
  calls (snd (GenerateRandomBytes num_bytes s)) =
  calls s ++ [Call_RAND_bytes num_bytes] /\
  (fst (GenerateRandomBytes num_bytes s) = Aborted EngineFailed <->
   fst (rand_bytes (rand_ s) num_bytes) = None) /\
  (forall bs,
      fst (GenerateRandomBytes num_bytes s) = Returned bs ->
      (length bs <= Z.to_nat num_bytes)%nat /\
      exists buf, fst (rand_bytes (rand_ s) num_bytes) = Some buf /\
                  bs = firstn (Z.to_nat num_bytes) buf).
Proof.
  intros Hn. unfold GenerateRandomBytes.
  destruct (Z.leb_spec 0 num_bytes); [| lia].
  rewrite CHECK_true. unfold bind, RAND_bytes.
  destruct (rand_bytes (rand_ s) num_bytes) as [[buf |] g]; cbn.
  - split; [reflexivity | split; [split; discriminate |]].
    intros bs Hbs. injection Hbs as <-.
    split; [apply firstn_le_length | exists buf; split; reflexivity].
  - split; [reflexivity | split; [split; reflexivity |]].
    intros bs Hbs. discriminate Hbs.
Qed.

End MoreRandomness.

Section MoreRelativelyPrime.

Context {E : Engine} {ES : EngineSpec E}.

(** X15: RelativelyPrimeRandomLessThan has no check on its argument: for
    n <= 0 the first draw is attempted, the engine rejects the range, and
    the process aborts on that failure after the one call; the loop is
    never entered. *)
Theorem RelativelyPrimeRandomLessThan_nonpositive
        (fuel : nat) (n : Z) (s : State) :
  n <= 0 ->
  RelativelyPrimeRandomLessThan fuel n s =
  (Aborted EngineFailed, after_draw n s) /\
  calls (after_draw n s) = calls s ++ [Call_BN_rand_range n None].
Proof.
  intros Hn.
  pose proof (rand_range_invalid (rand_ s) n Hn) as Hfail.
  split.
  - unfold RelativelyPrimeRandomLessThan, bind.
    rewrite GenerateRandLessThan_run, Hfail. reflexivity.
  - rewrite calls_after_draw, Hfail. reflexivity.
Qed.

(** X16: for n > 1 a value returned by RelativelyPrimeRandomLessThan(n)
    is never 0, and it is a unit modulo n: some u in [0, n) has
    r * u = 1 (mod n). *)
Theorem RelativelyPrimeRandomLessThan_is_unit
        (fuel : nat) (n r : Z) (s s' : State) :
  1 < n ->
  RelativelyPrimeRandomLessThan fuel n s = (Returned r, s') ->
  1 <= r < n /\
  exists u, 0 <= u < n /\ (r * u) mod n = 1.
Proof.
  intros Hn Hrun.
  assert (Hr : 0 <= r < n /\ Z.gcd r n = 1).
  { unfold RelativelyPrimeRandomLessThan in Hrun.
    destruct (GenerateRandLessThan_valid n s ltac:(lia))
      as [c [_ [Hdraw Hrange]]].
    rewrite (bind_Returned _ _ _ _ _ Hdraw) in Hrun.
    pose proof (RelativelyPrime_loop_outcome n Hn fuel c (after_draw n s)
                  Hrange) as H.
    rewrite Hrun in H. destruct H as [H1 [H2 _]]. split; assumption. }
  destruct Hr as [Hrange Hgcd].
  split.
  - destruct (Z.eq_dec r 0) as [-> | Hnz]; [| lia].
    rewrite Z.gcd_0_l, Z.abs_eq in Hgcd by lia. lia.
  - destruct (Z.gcd_bezout r n 1 Hgcd) as [a [b Hab]].
    exists (a mod n). split; [apply Z.mod_pos_bound; lia |].
    rewrite Z.mul_mod_idemp_r by lia.
    replace (r * a) with (1 + (- b) * n) by lia.
    rewrite Z.mod_add by lia. apply Z.mod_small. lia.
Qed.

End MoreRelativelyPrime.

(** X20: a range of a single value leaves nothing to chance:
    RandomBetween(start, start + 1) returns start, after one draw below 1
    whose only possible result is 0. *)
Theorem GenerateRandBetween_single_value
        {E : Engine} {ES : EngineSpec E} (start : Z) (s : State) :
  GenerateRandBetween start (start + 1) s = (Returned start, after_draw 1 s) /\
  calls (after_draw 1 s) = calls s ++ [Call_BN_rand_range 1 (Some 0)].
Proof.
  destruct (GenerateRandLessThan_valid 1 s ltac:(lia))
    as [c [Hc [Hrun Hrange]]].
  assert (c = 0) by lia. subst c.
  split.
  - unfold GenerateRandBetween.
    destruct (Z.ltb_spec start (start + 1)); [| lia].
    rewrite CHECK_true.
    replace (start + 1 - start) with 1 by lia.
    rewrite (bind_Returned _ _ _ _ _ Hrun). reflexivity.
  - rewrite calls_after_draw, Hc. reflexivity.
Qed.

(** *** The further properties at concrete inputs *)

Lemma CreateBigNum_ToBytes_round_trip_witness :
  0 <= 258 /\ CreateBigNum_bytes (BigNum.ToBytes 258) = 258.
Proof.
  assert (H : 0 <= 258) by lia.
  split; [exact H |].
  exact (proj1 (CreateBigNum_ToBytes_round_trip 258 H)).
Defined.

Lemma oracle_messages_are_separated_witness :
  1 <= 1 <= 254 /\ 1 <= 2 <= 254 /\
  length (oracle_message TestEngine.hello 1) = 6%nat.
Proof.
  assert (H1 : 1 <= 1 <= 254) by lia.
  assert (H2 : 1 <= 2 <= 254) by lia.
  split; [exact H1 | split; [exact H2 |]].
  exact (proj1 (oracle_messages_are_separated
                  TestEngine.hello TestEngine.hello 1 2 H1 H2)).
Defined.

Lemma RandomOracle_engine_calls_witness :
  BigNum.BitLength 1000 + 512 <= 130048 /\
  length (calls (snd (RandomOracle TestEngine.hello 1000
                                   (TestEngine.fresh 0)))) =
  (length (calls (TestEngine.fresh 0)) + 3 * 2)%nat.
Proof.
  assert (H : BigNum.BitLength 1000 + 512 <= 130048)
    by (vm_compute; discriminate).
  split; [exact H |].
  exact (proj2 (@RandomOracle_engine_calls
                  TestEngine.engine TestEngine.hello 1000
                  (TestEngine.fresh 0) H)).
Defined.

Lemma RandomOracle_security_margin_witness :
  0 < 1000 /\
  BigNum.BitLength 1000 + 512 <= 130048 /\
  exists hash_output s',
    RandomOracle_loop 2 TestEngine.hello 1 (CreateBigNum 0)
                      (TestEngine.fresh 0) = (Returned hash_output, s') /\
    0 <= hash_output < 2 ^ 1024 /\
    0 <= BigNum.Rshift hash_output 502 < 2 ^ 522 /\
    fst (RandomOracle TestEngine.hello 1000 (TestEngine.fresh 0)) =
    Returned (BigNum.Rshift hash_output 502 mod 1000).
Proof.
  assert (H1 : 0 < 1000) by lia.
  assert (H2 : BigNum.BitLength 1000 + 512 <= 130048)
    by (vm_compute; discriminate).
  split; [exact H1 | split; [exact H2 |]].
  destruct (@RandomOracle_security_margin
              TestEngine.engine test_engine_spec
              TestEngine.hello 1000 (TestEngine.fresh 0) H1 H2)
    as [hash_output [s' [Hloop [Hb [_ [_ [Hw [_ Hres]]]]]]]].
  exists hash_output, s'.
  split; [exact Hloop | split; [exact Hb | split; [exact Hw | exact Hres]]].
Defined.

Lemma PRF_nonpositive_modulus_never_returns_witness :
  (10 <= length TestEngine.key10)%nat /\
  Z.of_nat (length TestEngine.key10) * 8 <= SIZE_MAX /\
  BigNum.BitLength 0 <= 512 /\
  0 <= 0 /\
  fst (PRF 4 TestEngine.key10 TestEngine.hello 0 (TestEngine.fresh 0)) =
  OutOfFuel.
Proof.
  assert (H1 : (10 <= length TestEngine.key10)%nat) by (cbn; lia).
  assert (H2 : Z.of_nat (length TestEngine.key10) * 8 <= SIZE_MAX)
    by (vm_compute; discriminate).
  assert (H3 : BigNum.BitLength 0 <= 512) by (vm_compute; discriminate).
  assert (H4 : 0 <= 0) by lia.
  split; [exact H1 | split; [exact H2 | split; [exact H3 | split;
    [exact H4 |]]]].
  exact (proj1 (@PRF_nonpositive_modulus_never_returns
                  TestEngine.engine 4 TestEngine.key10 TestEngine.hello 0
                  (TestEngine.fresh 0) H1 H2 H3 H4)).
Defined.

Lemma PRF_candidate_below_twice_max_witness :
  0 < 5 /\
  0 <= BigNum.GetLastNBits
         (BigNum.of_bytes (hmac EVP_sha512 TestEngine.key10 TestEngine.hello))
         (BigNum.BitLength 5) < 2 * 5.
Proof.
  assert (H : 0 < 5) by lia.
  split; [exact H |].
  exact (proj1 (@PRF_candidate_below_twice_max
                  TestEngine.engine TestEngine.key10 TestEngine.hello 5 H)).
Defined.

Lemma PRF_next_round_data_witness :
  (length (BigNum.ToBytes
             (BigNum.of_bytes
                (hmac EVP_sha512 TestEngine.key10 TestEngine.hello))) <= 64)%nat.
Proof.
  exact (proj1 (@PRF_next_round_data
                  TestEngine.engine test_engine_spec
                  TestEngine.key10 TestEngine.hello)).
Defined.

Lemma GenerateRandBetween_from_zero_witness :
  0 < 7 /\
  GenerateRandBetween 0 7 (TestEngine.fresh 12) =
  GenerateRandLessThan 7 (TestEngine.fresh 12).
Proof.
  assert (H : 0 < 7) by lia.
  split; [exact H |].
  exact (proj1 (@GenerateRandBetween_from_zero
                  TestEngine.engine 7 (TestEngine.fresh 12)) H).
Defined.

Lemma sampler_failure_is_fatal_witness :
  fst (rand_range (rand_ (BrokenEngine.fresh 0)) 7) = None /\
  GenerateRandLessThan 7 (BrokenEngine.fresh 0) =
  (Aborted EngineFailed, after_draw 7 (BrokenEngine.fresh 0)).
Proof.
  assert (H : fst (rand_range (rand_ (BrokenEngine.fresh 0)) 7) = None)
    by reflexivity.
  split; [exact H |].
  exact (proj1 (@sampler_failure_is_fatal
                  BrokenEngine.engine 7 (BrokenEngine.fresh 0) H)).
Defined.

Lemma RelativelyPrimeRandomLessThan_never_gives_up_witness :
  (forall g, exists c,
        fst (rand_range (Engine := StuckEngine.engine) g 6) = Some c /\
        1 < Z.gcd c 6) /\
  fst (RelativelyPrimeRandomLessThan 5 6 (StuckEngine.fresh 0)) = OutOfFuel.
Proof.
  assert (H : forall g, exists c,
               fst (rand_range (Engine := StuckEngine.engine) g 6) = Some c /\
               1 < Z.gcd c 6).
  { intros g. exists 0. split; [reflexivity | cbn; lia]. }
  split; [exact H |].
  exact (proj1 (@RelativelyPrimeRandomLessThan_never_gives_up
                  StuckEngine.engine 5 6 (StuckEngine.fresh 0) H)).
Defined.

Lemma GenerateRandomBytes_one_call_witness :
  0 <= 3 /\
  calls (snd (GenerateRandomBytes 3 (TestEngine.fresh 65))) =
  calls (TestEngine.fresh 65) ++ [Call_RAND_bytes 3].
Proof.
  assert (H : 0 <= 3) by lia.
  split; [exact H |].
  exact (proj1 (@GenerateRandomBytes_one_call
                  TestEngine.engine 3 (TestEngine.fresh 65) H)).
Defined.

Lemma RelativelyPrimeRandomLessThan_nonpositive_witness :
  0 <= 0 /\
  RelativelyPrimeRandomLessThan 5 0 (TestEngine.fresh 0) =
  (Aborted EngineFailed, after_draw 0 (TestEngine.fresh 0)).
Proof.
  assert (H : 0 <= 0) by lia.
  split; [exact H |].
  exact (proj1 (@RelativelyPrimeRandomLessThan_nonpositive
                  TestEngine.engine test_engine_spec 5 0
                  (TestEngine.fresh 0) H)).
Defined.

Lemma RelativelyPrimeRandomLessThan_is_unit_witness :
  1 < 6 /\
  RelativelyPrimeRandomLessThan 10 6 (TestEngine.fresh 0) =
  (Returned 1, snd (RelativelyPrimeRandomLessThan 10 6 (TestEngine.fresh 0))) /\
  1 <= 1 < 6 /\ exists u, 0 <= u < 6 /\ (1 * u) mod 6 = 1.
Proof.
  assert (H1 : 1 < 6) by lia.
  assert (H2 : RelativelyPrimeRandomLessThan 10 6 (TestEngine.fresh 0) =
               (Returned 1,
                snd (RelativelyPrimeRandomLessThan 10 6 (TestEngine.fresh 0))))
    by reflexivity.
  split; [exact H1 | split; [exact H2 |]].
  exact (@RelativelyPrimeRandomLessThan_is_unit
           TestEngine.engine test_engine_spec 10 6 1
           (TestEngine.fresh 0) _ H1 H2).
Defined.

Lemma GenerateRandBetween_single_value_witness :
  GenerateRandBetween 41 (41 + 1) (TestEngine.fresh 9) =
  (Returned 41, after_draw 1 (TestEngine.fresh 9)).
Proof.
  exact (proj1 (@GenerateRandBetween_single_value
                  TestEngine.engine test_engine_spec 41 (TestEngine.fresh 9))).
Defined.
